(** * TeenPattiPool: the room server (server.js) as a shallow embedding

    The Socket.IO handlers of [server.js] are modelled as functions that
    take the room (or the room registry) and return the new state together
    with what the handler reports.  JavaScript's in-place mutation of the
    room object is written out as state passing, in the order the handler
    performs it. *)

From Stdlib Require Import ZArith Lia Ascii String.
From stdpp Require Import base list gmap strings.

Open Scope string_scope.

(* ------------------------------------------------------------------ *)
(** ** JavaScript values and the string built-ins the handlers use *)

Module JS.

(** Values a socket payload field can hold.  Numbers are the integer-valued
    ones the client sends ([parseInt(..)] results); a [NaN] is serialised
    by Socket.IO as [null]. *)
Inductive jsval :=
| JUndefined
| JNull
| JBool (b : bool)
| JInt (z : Z)
| JString (s : string).

(** [!v] *)
Definition falsy (v : jsval) : bool :=
  match v with
  | JUndefined | JNull => true
  | JBool b => negb b
  | JInt z => Z.eqb z 0
  | JString s => String.eqb s ""
  end.

(** JavaScript white space and line terminators (ASCII part). *)
Definition is_ws (c : ascii) : bool :=
  let n := nat_of_ascii c in ((9 <=? n) && (n <=? 13))%nat || (n =? 32)%nat.

Fixpoint trim_start (s : string) : string :=
  match s with
  | EmptyString => EmptyString
  | String c s' => if is_ws c then trim_start s' else s
  end.

Definition rev_string (s : string) : string :=
  string_of_list_ascii (List.rev (list_ascii_of_string s)).

(** [String.prototype.trim], stripping the ASCII white space of [is_ws]
    (exact on the strings of [is_ascii]). *)
Definition trim (s : string) : string :=
  rev_string (trim_start (rev_string (trim_start s))).

(** A string of ASCII characters only (every byte below 128).  On such
    strings [trim] and [toLowerCase] compute exactly what JavaScript's do;
    on other strings they leave the non-ASCII characters alone, where
    JavaScript also strips Unicode white space and lowercases by the
    Unicode case tables ('É' to 'é'). *)
Definition is_ascii (s : string) : bool :=
  forallb (fun c => (nat_of_ascii c <? 128)%nat) (list_ascii_of_string s).

(** [String.prototype.toLowerCase] on ASCII letters; other characters are
    kept (exact on the strings of [is_ascii]). *)
Definition lower_char (c : ascii) : ascii :=
  let n := nat_of_ascii c in
  if ((65 <=? n) && (n <=? 90))%nat then ascii_of_nat (n + 32) else c.

Fixpoint toLowerCase (s : string) : string :=
  match s with
  | EmptyString => EmptyString
  | String c s' => String (lower_char c) (toLowerCase s')
  end.

(** Decimal numerals of integers, as [Number.prototype.toString] prints them. *)
Definition digit_char (d : N) : ascii := ascii_of_nat (48 + N.to_nat d).

Fixpoint N_digits_go (fuel : nat) (n : N) (acc : list N) : list N :=
  match fuel with
  | O => n :: acc
  | S f => if (n <? 10)%N then n :: acc
           else N_digits_go f (n / 10)%N ((n mod 10)%N :: acc)
  end.

Definition N_digits (n : N) : list N := N_digits_go (N.to_nat (N.size n)) n [].

Fixpoint drop_zeros (ds : list N) : list N :=
  match ds with
  | 0%N :: ds' => drop_zeros ds'
  | _ => ds
  end.

Fixpoint string_of_digits (ds : list N) : string :=
  match ds with
  | [] => EmptyString
  | d :: ds' => String (digit_char d) (string_of_digits ds')
  end.

(** The digits without their trailing zeros. *)
Definition strip_trailing_zeros (ds : list N) : list N :=
  List.rev (drop_zeros (List.rev ds)).

(** [Number.prototype.toString] of a non-negative integer [n]: with [k]
    significant digits and [10^(e-1) <= n < 10^e], plain decimal when
    [e <= 21], otherwise the exponent form [d.ddde+(e-1)] ([de+(e-1)] for
    one significant digit). *)
Definition N_toString (n : N) : string :=
  let ds := N_digits n in
  if (n <? 10 ^ 21)%N then string_of_digits ds else
  match strip_trailing_zeros ds with
  | [] => string_of_digits ds
  | d :: rest =>
      String (digit_char d)
        ((match rest with [] => "" | _ => String "." (string_of_digits rest) end) ++
         "e+" ++ string_of_digits (N_digits (N.of_nat (length ds - 1))))
  end.

Definition Z_toString (z : Z) : string :=
  if (z <? 0)%Z then String "-" (N_toString (Z.to_N (- z)))
  else N_toString (Z.to_N z).

(** [String(v)] *)
Definition toString (v : jsval) : string :=
  match v with
  | JUndefined => "undefined"
  | JNull => "null"
  | JBool true => "true"
  | JBool false => "false"
  | JInt z => Z_toString z
  | JString s => s
  end.

(** Value of a digit character in the given radix (10 or 16). *)
Definition digit_val (radix : Z) (c : ascii) : option Z :=
  let n := Z.of_nat (nat_of_ascii c) in
  let d := if ((48 <=? n) && (n <=? 57))%Z then Some (n - 48)%Z
           else if ((97 <=? n) && (n <=? 122))%Z then Some (n - 87)%Z
           else if ((65 <=? n) && (n <=? 90))%Z then Some (n - 55)%Z
           else None in
  match d with
  | Some k => if (k <? radix)%Z then Some k else None
  | None => None
  end.

(** Longest prefix of radix digits; [None] when there is none ([NaN]). *)
Fixpoint take_digits (radix : Z) (s : string) (acc : Z) (seen : bool) : option Z :=
  match s with
  | EmptyString => if seen then Some acc else None
  | String c s' =>
      match digit_val radix c with
      | Some d => take_digits radix s' (acc * radix + d)%Z true
      | None => if seen then Some acc else None
      end
  end.

Definition is_x (c : ascii) : bool := (c =? "x")%char || (c =? "X")%char.

(** The optional sign of [parseInt]. *)
Definition sign_split (s1 : string) : Z * string :=
  match s1 with
  | String c r => if (c =? "-")%char then ((-1)%Z, r)
                  else if (c =? "+")%char then (1%Z, r) else (1%Z, s1)
  | EmptyString => (1%Z, s1)
  end.

(** The [0x] / [0X] prefix selecting radix 16. *)
Definition radix_split (s2 : string) : Z * string :=
  match s2 with
  | String c (String x r) => if (c =? "0")%char && is_x x then (16%Z, r) else (10%Z, s2)
  | _ => (10%Z, s2)
  end.

(** [parseInt(string)] without a radix argument: leading white space, an
    optional sign, a [0x] prefix selecting radix 16; [None] is [NaN]. *)
Definition parseInt_string (s : string) : option Z :=
  let s1 := trim_start s in
  let '(sign, s2) := sign_split s1 in
  let '(radix, s3) := radix_split s2 in
  option_map (Z.mul sign) (take_digits radix s3 0 false).

(** [parseInt(v)] converts its argument to a string first. *)
Definition parseInt (v : jsval) : option Z := parseInt_string (toString v).

(** [parseInt(v) || d]: [NaN] and [0] are falsy. *)
Definition parseInt_or (v : jsval) (d : Z) : Z :=
  match parseInt v with
  | Some z => if Z.eqb z 0 then d else z
  | None => d
  end.

End JS.

Import JS.

(* ------------------------------------------------------------------ *)
(** ** Rooms and players *)

Module Room.

Record player := mkPlayer {
  id : string;
  socketId : string;
  name : string;
  balance : Z;
  isCreator : bool;
  packed : bool
}.

(** Game-log messages: the template strings of [addToGameLog] calls, with
    their arguments; the [[time]] prefix is not modelled. *)
Inductive log_msg :=
| LCreated (who : string)
| LReconnected (who : string)
| LJoined (who : string)
| LBid (who : string) (amount : Z)
| LPacked (who : string)
| LAutoWin (who : string) (amount : Z)
| LPoolReset (by_ : string) (round : Z) (startingBalance : Z)
| LDeclared (who : string) (amount : Z) (by_ : string)
| LRemoved (who : string) (by_ : string)
| LTurnChanged (who : string) (by_ : string)
| LLeft (who : string)
| LLeftTimeout (who : string).

Record room := mkRoom {
  code : string;
  creator : string;
  startingBalance : Z;
  players : list player;
  pool : Z;
  currentTurn : nat;
  round : Z;
  gameLog : list log_msg;
  totalBids : Z
}.

(** Field updates of the mutable room and player objects. *)
Definition set_players (r : room) (ps : list player) : room :=
  mkRoom r.(code) r.(creator) r.(startingBalance) ps r.(pool) r.(currentTurn)
    r.(round) r.(gameLog) r.(totalBids).
Definition set_creator (r : room) (c : string) : room :=
  mkRoom r.(code) c r.(startingBalance) r.(players) r.(pool) r.(currentTurn)
    r.(round) r.(gameLog) r.(totalBids).
Definition set_pool (r : room) (v : Z) : room :=
  mkRoom r.(code) r.(creator) r.(startingBalance) r.(players) v r.(currentTurn)
    r.(round) r.(gameLog) r.(totalBids).
Definition set_currentTurn (r : room) (t : nat) : room :=
  mkRoom r.(code) r.(creator) r.(startingBalance) r.(players) r.(pool) t
    r.(round) r.(gameLog) r.(totalBids).
Definition set_round (r : room) (v : Z) : room :=
  mkRoom r.(code) r.(creator) r.(startingBalance) r.(players) r.(pool)
    r.(currentTurn) v r.(gameLog) r.(totalBids).
Definition set_gameLog (r : room) (l : list log_msg) : room :=
  mkRoom r.(code) r.(creator) r.(startingBalance) r.(players) r.(pool)
    r.(currentTurn) r.(round) l r.(totalBids).
Definition set_totalBids (r : room) (v : Z) : room :=
  mkRoom r.(code) r.(creator) r.(startingBalance) r.(players) r.(pool)
    r.(currentTurn) r.(round) r.(gameLog) v.

Definition set_balance (p : player) (b : Z) : player :=
  mkPlayer p.(id) p.(socketId) p.(name) b p.(isCreator) p.(packed).
Definition set_packed (p : player) (b : bool) : player :=
  mkPlayer p.(id) p.(socketId) p.(name) p.(balance) p.(isCreator) b.
Definition set_isCreator (p : player) (b : bool) : player :=
  mkPlayer p.(id) p.(socketId) p.(name) p.(balance) b p.(packed).
Definition set_socketId (p : player) (s : string) : player :=
  mkPlayer p.(id) s p.(name) p.(balance) p.(isCreator) p.(packed).

(** [Array.prototype.findIndex]; [None] is [-1]. *)
Fixpoint findIndex {A} (f : A -> bool) (l : list A) : option nat :=
  match l with
  | [] => None
  | x :: l' => if f x then Some 0%nat else option_map S (findIndex f l')
  end.

(** [Array.prototype.find] *)
Definition find {A} (f : A -> bool) (l : list A) : option A :=
  match findIndex f l with Some i => l !! i | None => None end.

Definition id_is (pid : string) (p : player) : bool := String.eqb p.(id) pid.

(** [room.players[i].packed]; the index is always in range where it is read. *)
Definition packed_at (ps : list player) (i : nat) : bool :=
  match ps !! i with Some p => p.(packed) | None => false end.

(** [addToGameLog]: push, then keep the last 50 entries. *)
Definition addToGameLog (r : room) (m : log_msg) : room :=
  let l := (r.(gameLog) ++ [m])%list in
  set_gameLog r (if (50 <? length l)%nat then drop (length l - 50) l else l).

(** The [while (room.players[room.currentTurn].packed && attempts < totalPlayers)]
    loop.  [budget] is [totalPlayers - attempts]; the result is the final
    [currentTurn] and the final budget ([0] iff [attempts >= totalPlayers]). *)
Fixpoint skip_packed (ps : list player) (total ct budget : nat) : nat * nat :=
  match budget with
  | O => (ct, O)
  | S b => if packed_at ps ct then skip_packed ps total ((ct + 1) mod total) b
           else (ct, S b)
  end.

(** [for (let i = 0; i < totalPlayers; i++) if (!room.players[i].packed) ...] *)
Definition first_active (ps : list player) : option nat :=
  findIndex (fun p => negb p.(packed)) ps.

(** [moveToNextActivePlayer] *)
Definition moveToNextActivePlayer (r : room) : room :=
  match r.(players) with
  | [] => r
  | ps =>
      let total := length ps in
      let ct0 := ((r.(currentTurn) + 1) mod total)%nat in
      let '(ct1, budget) := skip_packed ps total ct0 total in
      let ct2 := match budget with
                 | O => match first_active ps with Some i => i | None => ct1 end
                 | S _ => ct1
                 end in
      set_currentTurn r ct2
  end.

(** [ensureActiveTurn] *)
Definition ensureActiveTurn (r : room) : room :=
  match r.(players) with
  | [] => r
  | ps =>
      match ps !! r.(currentTurn) with
      | Some cp =>
          if cp.(packed) then
            let total := length ps in
            let '(ct1, budget) := skip_packed ps total r.(currentTurn) total in
            let ct2 := match budget with
                       | O => match first_active ps with Some i => i | None => ct1 end
                       | S _ => ct1
                       end in
            set_currentTurn r ct2
          else r
      | None => r
      end
  end.

End Room.

(* ------------------------------------------------------------------ *)
(** ** The socket event handlers, on one room *)

Module Handlers.
Import Room.

(** The [socket.emit('error', ..)] / [success: false] messages. *)
Inductive err :=
| EEnterName               (* 'Please enter your name' *)
| EBadRoomCode             (* 'Please enter a valid 4-digit room code' *)
| EJoinRoomNotFound        (* 'Room not found. Please check the room code.' *)
| EDuplicateName           (* 'A player with this name already exists in the room' *)
| ERejoinInvalid           (* 'Invalid rejoin data' *)
| ERejoinRoomNotFound      (* 'Room not found' (rejoin) *)
| ERejoinPlayerNotFound    (* 'Player not found in room' *)
| ENotInRoom               (* 'You are not in a room' *)
| ERoomNotFound            (* 'Room not found' *)
| EPlayerNotFound          (* 'Player not found' *)
| ENotYourTurn             (* "It's not your turn!" *)
| EInvalidBid              (* 'Please enter a valid bid amount' *)
| EInsufficientBalance     (* 'Insufficient balance!' *)
| EAlreadyPacked           (* 'You have already packed' *)
| EPackNotYourTurn         (* 'You can only pack during your turn' *)
| EOnlyCreatorReset        (* 'Only the room creator can reset the pool' *)
| EOnlyHostDeclare         (* 'Only the host can declare a winner' *)
| EWinnerNotFound          (* 'Winner not found' *)
| EPoolEmpty               (* 'Pool is empty. No winnings to distribute.' *)
| EOnlyHostRemove          (* 'Only the host can remove players' *)
| EHostCannotRemoveSelf    (* 'Host cannot remove themselves. Use Leave Room instead.' *)
| EOnlyHostChangeTurn      (* 'Only the host can change turn' *)
| ETurnToPacked            (* 'Cannot set turn to a packed player' *)
| EUncaught.               (* a TypeError thrown out of the handler *)

(** Room-wide and directed notifications (the room snapshots they carry
    are the returned state). *)
Inductive event :=
| EvRoomCreated
| EvRoomRejoined
| EvRoomJoined (p : player)
| EvBidPlaced (who : string) (amount : Z)
| EvWinnerDeclared (who : string) (amount : Z) (declaredBy : string)
| EvPlayerPacked (who : string)
| EvPoolReset (finalAmount : Z)
| EvPlayerRemoved (socket : string) (hostName : string)
| EvPlayerLeft (who : string)
| EvTurnChanged (who : string) (changedBy : string).

Inductive reply :=
| Ok (evs : list event)
| Err (e : err).

Definition credit (amount : Z) (p : player) : player := set_balance p (p.(balance) + amount).
Definition unpack (p : player) : player := set_packed p false.

(** [socket.on('joinRoom')] after the room lookup; [newId] is the value of
    [generatePlayerId()], [sid] is [socket.id]. *)
Definition joinRoom (r : room) (playerName newId sid : string) : room * reply :=
  if String.eqb (trim playerName) "" then (r, Err EEnterName) else
  if existsb (fun p => String.eqb (toLowerCase p.(name)) (toLowerCase playerName)) r.(players)
  then (r, Err EDuplicateName) else
  let newPlayer := mkPlayer newId sid playerName r.(startingBalance) false false in
  let r1 := set_players r (r.(players) ++ [newPlayer])%list in
  let r2 := addToGameLog r1 (LJoined playerName) in
  (ensureActiveTurn r2, Ok [EvRoomJoined newPlayer]).

(** [socket.on('rejoinRoom')] after the field checks and the room lookup. *)
Definition rejoinRoom (r : room) (playerId playerName sid : string) : room * reply :=
  match findIndex (id_is playerId) r.(players) with
  | Some i =>
      let r1 := set_players r (alter (fun p => set_socketId p sid) i r.(players)) in
      (addToGameLog r1 (LReconnected playerName), Ok [EvRoomRejoined])
  | None => (r, Err ERejoinPlayerNotFound)
  end.

(** [socket.on('placeBid')]; [amount] is [None] when absent or [null]. *)
Definition placeBid (r : room) (playerId : string) (amount : option Z) : room * reply :=
  match findIndex (id_is playerId) r.(players) with
  | None => (r, Err EPlayerNotFound)
  | Some pi =>
  match r.(players) !! pi with
  | None => (r, Err EPlayerNotFound)
  | Some player =>
  match r.(players) !! r.(currentTurn) with
  | None => (r, Err EUncaught)
  | Some cur =>
  if negb (String.eqb cur.(id) playerId) then (r, Err ENotYourTurn) else
  match amount with
  | None => (r, Err EInvalidBid)
  | Some a =>
  if (a <=? 0)%Z then (r, Err EInvalidBid) else
  if (player.(balance) <? a)%Z then (r, Err EInsufficientBalance) else
  let r1 := set_players r (alter (fun p => set_balance p (p.(balance) - a)) pi r.(players)) in
  let r2 := set_pool r1 (r1.(pool) + a) in
  let r3 := set_totalBids r2 (r2.(totalBids) + 1) in
  let r4 := addToGameLog r3 (LBid player.(name) a) in
  (moveToNextActivePlayer r4, Ok [EvBidPlaced player.(name) a])
  end end end end.

(** The automatic win of [socket.on('packCards')] when one player is left
    unpacked; [j] is the index of [activePlayers[0]]. *)
Definition autoWin (r : room) (j : nat) (winner : player) : room :=
  let winAmount := r.(pool) in
  let r1 := set_players r (alter (credit winAmount) j r.(players)) in
  let r2 := addToGameLog r1 (LAutoWin winner.(name) winAmount) in
  let r3 := set_pool r2 0 in
  let r4 := set_round r3 (r3.(round) + 1) in
  let r5 := set_totalBids r4 0 in
  let winnerIndex := findIndex (id_is winner.(id)) r5.(players) in
  let r6 := set_currentTurn r5 (match winnerIndex with Some i => i | None => 0%nat end) in
  set_players r6 (map unpack r6.(players)).

(** [socket.on('packCards')] *)
Definition packCards (r : room) (playerId : string) : room * reply :=
  match findIndex (id_is playerId) r.(players) with
  | None => (r, Err EPlayerNotFound)
  | Some pi =>
  match r.(players) !! pi with
  | None => (r, Err EPlayerNotFound)
  | Some player =>
  if player.(packed) then (r, Err EAlreadyPacked) else
  if negb (Nat.eqb r.(currentTurn) pi) then (r, Err EPackNotYourTurn) else
  let r1 := set_players r (alter (fun p => set_packed p true) pi r.(players)) in
  let r2 := addToGameLog r1 (LPacked player.(name)) in
  let r3 := moveToNextActivePlayer r2 in
  let activePlayers := List.filter (fun p => negb p.(packed)) r3.(players) in
  let '(r4, evs) :=
    if Nat.eqb (length activePlayers) 1 then
      match findIndex (fun p => negb p.(packed)) r3.(players) with
      | Some j =>
          match r3.(players) !! j with
          | Some winner =>
              (autoWin r3 j winner,
               [EvWinnerDeclared winner.(name) r3.(pool) "System (Auto)"])
          | None => (r3, [])
          end
      | None => (r3, [])
      end
    else (r3, []) in
  (ensureActiveTurn r4, Ok (evs ++ [EvPlayerPacked player.(name)])%list)
  end end.

(** [socket.on('resetPool')] *)
Definition resetPool (r : room) (playerId : string) : room * reply :=
  match find (id_is playerId) r.(players) with
  | Some player =>
      if negb player.(isCreator) then (r, Err EOnlyCreatorReset) else
      let finalPoolAmount := r.(pool) in
      let r1 := set_currentTurn (set_totalBids (set_round (set_pool r 0) 1) 0) 0 in
      let sb := r1.(startingBalance) in
      let r2 := set_players r1 (map (fun p => set_packed (set_balance p sb) false) r1.(players)) in
      (addToGameLog r2 (LPoolReset player.(name) r2.(round) sb), Ok [EvPoolReset finalPoolAmount])
  | None => (r, Err EOnlyCreatorReset)
  end.

(** [socket.on('declareWinner')] *)
Definition declareWinner (r : room) (playerId winnerId : string) : room * reply :=
  match find (id_is playerId) r.(players) with
  | None => (r, Err EOnlyHostDeclare)
  | Some hostPlayer =>
  if negb hostPlayer.(isCreator) then (r, Err EOnlyHostDeclare) else
  match findIndex (id_is winnerId) r.(players) with
  | None => (r, Err EWinnerNotFound)
  | Some wi =>
  match r.(players) !! wi with
  | None => (r, Err EWinnerNotFound)
  | Some winner =>
  if (r.(pool) <=? 0)%Z then (r, Err EPoolEmpty) else
  let winAmount := r.(pool) in
  let r1 := set_players r (alter (credit winAmount) wi r.(players)) in
  let r2 := addToGameLog r1 (LDeclared winner.(name) winAmount hostPlayer.(name)) in
  let r3 := set_totalBids (set_round (set_pool r2 0) (r2.(round) + 1)) 0 in
  let winnerIndex := findIndex (id_is winner.(id)) r3.(players) in
  let r4 := set_currentTurn r3 (match winnerIndex with Some i => i | None => 0%nat end) in
  (set_players r4 (map unpack r4.(players)),
   Ok [EvWinnerDeclared winner.(name) winAmount hostPlayer.(name)])
  end end end.

(** [socket.on('removePlayer')] *)
Definition removePlayer (r : room) (playerId playerIdToRemove : string) : room * reply :=
  match find (id_is playerId) r.(players) with
  | None => (r, Err EOnlyHostRemove)
  | Some hostPlayer =>
  if negb hostPlayer.(isCreator) then (r, Err EOnlyHostRemove) else
  match find (id_is playerIdToRemove) r.(players) with
  | None => (r, Err EPlayerNotFound)
  | Some playerToRemove =>
  if playerToRemove.(isCreator) then (r, Err EHostCannotRemoveSelf) else
  match findIndex (id_is playerIdToRemove) r.(players) with
  | None => (r, Ok [])
  | Some playerIndex =>
      let removed := playerToRemove in
      let r1 := set_players r (delete playerIndex r.(players)) in
      let r2 := addToGameLog r1 (LRemoved removed.(name) hostPlayer.(name)) in
      let ct := r2.(currentTurn) in
      let r3 :=
        if (length r2.(players) <=? ct)%nat then set_currentTurn r2 0
        else if (playerIndex <? ct)%nat then set_currentTurn r2 (ct - 1)
        else r2 in
      (r3, Ok [EvPlayerRemoved removed.(socketId) hostPlayer.(name);
               EvPlayerLeft removed.(name)])
  end end end.

(** [socket.on('changeTurn')] *)
Definition changeTurn (r : room) (playerId newTurnPlayerId : string) : room * reply :=
  match find (id_is playerId) r.(players) with
  | None => (r, Err EOnlyHostChangeTurn)
  | Some hostPlayer =>
  if negb hostPlayer.(isCreator) then (r, Err EOnlyHostChangeTurn) else
  match findIndex (id_is newTurnPlayerId) r.(players) with
  | None => (r, Err EPlayerNotFound)
  | Some i =>
  match r.(players) !! i with
  | None => (r, Err EPlayerNotFound)
  | Some newTurnPlayer =>
  if newTurnPlayer.(packed) then (r, Err ETurnToPacked) else
  let r1 := set_currentTurn r i in
  (addToGameLog r1 (LTurnChanged newTurnPlayer.(name) hostPlayer.(name)),
   Ok [EvTurnChanged newTurnPlayer.(name) hostPlayer.(name)])
  end end end.

(** The removal shared by [leaveRoom] and the disconnect timeout: splice,
    log, hand the creator flag to [players[0]], delete the room when empty
    ([None]), otherwise clamp [currentTurn]. *)
Definition dropPlayer (r : room) (i : nat) (p : player) (m : log_msg) : option room * reply :=
  let r1 := set_players r (delete i r.(players)) in
  let r2 := addToGameLog r1 m in
  let r3 :=
    match r2.(players) with
    | first :: rest =>
        if p.(isCreator)
        then set_creator (set_players r2 (set_isCreator first true :: rest)) first.(name)
        else r2
    | [] => r2
    end in
  match r3.(players) with
  | [] => (None, Ok [])
  | _ =>
      let r4 := if (length r3.(players) <=? r3.(currentTurn))%nat
                then set_currentTurn r3 0 else r3 in
      (Some r4, Ok [EvPlayerLeft p.(name)])
  end.

(** [socket.on('leaveRoom')] *)
Definition leaveRoom (r : room) (playerId : string) : option room * reply :=
  match findIndex (id_is playerId) r.(players) with
  | Some i =>
      match r.(players) !! i with
      | Some p => dropPlayer r i p (LLeft p.(name))
      | None => (Some r, Ok [])
      end
  | None => (Some r, Ok [])
  end.

(** The [setTimeout] callback set by [socket.on('disconnect')], for the
    player [playerId] whose dropped socket was [sid]. *)
Definition disconnectTimeout (r : room) (playerId sid : string) : option room * reply :=
  match find (id_is playerId) r.(players) with
  | Some currentPlayer =>
      if String.eqb currentPlayer.(socketId) sid then
        match findIndex (id_is playerId) r.(players) with
        | Some i =>
            match r.(players) !! i with
            | Some p => dropPlayer r i p (LLeftTimeout p.(name))
            | None => (Some r, Ok [])
            end
        | None => (Some r, Ok [])
        end
      else (Some r, Ok [])
  | None => (Some r, Ok [])
  end.

(** A request on a room, by the player bound to the requesting socket. *)
Inductive op :=
| OJoin (playerName newId sid : string)
| ORejoin (playerId playerName sid : string)
| OBid (playerId : string) (amount : option Z)
| OPack (playerId : string)
| OReset (playerId : string)
| ODeclare (playerId winnerId : string)
| ORemove (playerId target : string)
| OChangeTurn (playerId target : string)
| OLeave (playerId : string)
| OTimeout (playerId sid : string).

Definition keep (x : room * reply) : option room * reply := (Some x.1, x.2).

Definition step (r : room) (o : op) : option room * reply :=
  match o with
  | OJoin n i s => keep (joinRoom r n i s)
  | ORejoin i n s => keep (rejoinRoom r i n s)
  | OBid i a => keep (placeBid r i a)
  | OPack i => keep (packCards r i)
  | OReset i => keep (resetPool r i)
  | ODeclare i w => keep (declareWinner r i w)
  | ORemove i t => keep (removePlayer r i t)
  | OChangeTurn i t => keep (changeTurn r i t)
  | OLeave i => leaveRoom r i
  | OTimeout i s => disconnectTimeout r i s
  end.

(** Runs a sequence of requests; a deleted room ([None]) takes no more. *)
Fixpoint run (r : option room) (os : list op) : option room * list (op * reply) :=
  match os, r with
  | [], _ => (r, [])
  | _, None => (None, [])
  | o :: os', Some rm =>
      let '(r', rep) := step rm o in
      let '(rf, tr) := run r' os' in
      (rf, (o, rep) :: tr)
  end.

End Handlers.

(* ------------------------------------------------------------------ *)
(** ** The room registry ([const rooms = new Map()]) *)

Module Registry.
Import Room Handlers.

Abbreviation registry := (gmap string room).

(** [generateRoomCode()]; [n] is the value drawn by
    [Math.floor(1000 + Math.random() * 9000)], an integer in [1000..9999]. *)
Definition generateRoomCode (n : Z) : string := Z_toString n.

(** [socket.on('createRoom')]: [n] is the draw of [generateRoomCode],
    [playerId] the value of [generatePlayerId()], [sid] is [socket.id].
    The room object is logged after [rooms.set], and the map holds that
    same object. *)
Definition createRoom (rooms : registry) (creatorName startingBalance : jsval)
    (n : Z) (playerId sid : string) : registry * reply :=
  if falsy creatorName then (rooms, Err EEnterName) else
  match creatorName with
  | JString cn =>
      if String.eqb (trim cn) "" then (rooms, Err EEnterName) else
      let roomCode := generateRoomCode n in
      let room := mkRoom roomCode cn (parseInt_or startingBalance 1000)
                    [mkPlayer playerId sid cn (parseInt_or startingBalance 1000) true false]
                    0 0 1 [] 0 in
      (<[roomCode := addToGameLog room (LCreated cn)]> rooms, Ok [EvRoomCreated])
  | _ => (rooms, Err EUncaught)   (* [creatorName.trim] is not a function *)
  end.

(** [socket.on('rejoinRoom')]: [rooms.get] finds only string keys and
    [p.id === playerId] only matches a string; the found room object is
    updated in place. *)
Definition rejoinRoomReg (rooms : registry) (roomCode playerId playerName : jsval)
    (sid : string) : registry * reply :=
  if falsy roomCode || falsy playerId || falsy playerName
  then (rooms, Err ERejoinInvalid) else
  match (match roomCode with JString c => (rooms !! c) | _ => None end) with
  | None => (rooms, Err ERejoinRoomNotFound)
  | Some r =>
      match roomCode, playerId with
      | JString c, JString pid =>
          let '(r', rep) := Handlers.rejoinRoom r pid (toString playerName) sid in
          (<[c := r']> rooms, rep)
      | _, _ => (rooms, Err ERejoinPlayerNotFound)
      end
  end.

(** [socket.on('joinRoom')]: [playerName.trim] throws on a truthy value
    that is not a string; [roomCode.length] of a number or boolean is
    [undefined]; [rooms.get] finds only string keys.  [newId] is the value of
    [generatePlayerId()], [sid] is [socket.id]; the found room object is
    updated in place. *)
Definition joinRoomReg (rooms : registry) (playerName roomCode : jsval)
    (newId sid : string) : registry * reply :=
  if falsy playerName then (rooms, Err EEnterName) else
  match playerName with
  | JString pn =>
      if String.eqb (trim pn) "" then (rooms, Err EEnterName) else
      if falsy roomCode then (rooms, Err EBadRoomCode) else
      match roomCode with
      | JString c =>
          if negb (Nat.eqb (String.length c) 4) then (rooms, Err EBadRoomCode) else
          match rooms !! c with
          | None => (rooms, Err EJoinRoomNotFound)
          | Some r =>
              let '(r', rep) := Handlers.joinRoom r pn newId sid in
              (<[c := r']> rooms, rep)
          end
      | _ => (rooms, Err EBadRoomCode)
      end
  | _ => (rooms, Err EUncaught)
  end.

End Registry.

(* ------------------------------------------------------------------ *)
(** ** The spec's vocabulary, stated over the model *)

Module SpecModel.
Import Room Handlers.

(** Settlement as the specification words it: credit the pool to the
    winner, zero the pool, increment the round, reset [totalBids], clear
    every packed flag, give the turn to the winner. *)
Definition settlement (r : room) (w : nat) : room :=
  let ps := map unpack (alter (credit r.(pool)) w r.(players)) in
  set_currentTurn (set_totalBids (set_round (set_pool (set_players r ps) 0)
    (r.(round) + 1)) 0) w.

(** The room with its game log left out. *)
Definition without_log (r : room) : room := set_gameLog r [].

Definition is_winner_event (ev : event) : bool :=
  match ev with EvWinnerDeclared _ _ _ => true | _ => false end.

(** The sum of the amounts of successful [placeBid] requests since the last
    settlement (a declared winner, an automatic win on [packCards]) or pool
    reset, one request at a time. *)
Definition bid_sum_step (acc : Z) (o : op) (rep : reply) : Z :=
  match rep with
  | Err _ => acc
  | Ok evs =>
      match o with
      | OBid _ (Some a) => (acc + a)%Z
      | ODeclare _ _ | OReset _ => 0%Z
      | OPack _ => if existsb is_winner_event evs then 0%Z else acc
      | _ => acc
      end
  end.

Fixpoint bids_since_settlement (acc : Z) (tr : list (op * reply)) : Z :=
  match tr with
  | [] => acc
  | (o, rep) :: tr' => bids_since_settlement (bid_sum_step acc o rep) tr'
  end.


(** A decimal digit character. *)
Definition is_digit (c : ascii) : bool :=
  let n := nat_of_ascii c in ((48 <=? n) && (n <=? 57))%nat.


End SpecModel.

(* ------------------------------------------------------------------ *)
(** ** Concrete rooms *)

Module Samples.
Import Room Handlers Registry.

Definition pA : player := mkPlayer "a" "sa" "A" 1000 true false.
Definition pB : player := mkPlayer "b" "sb" "B" 1000 false false.
Definition pC : player := mkPlayer "c" "sc" "C" 1000 false false.

(** The room as [createRoom] stores it for creator A under code 1234. *)
Definition created : room :=
  match (createRoom ∅ (JString "A") (JInt 1000) 1234 "a" "sa").1 !! "1234" with
  | Some r => r
  | None => mkRoom "" "" 0 [] 0 0 0 [] 0
  end.

(** Three players, the turn at C (index 2) after A and B have bid. *)
Definition three_bids : list op :=
  [OJoin "B" "b" "sb"; OJoin "C" "c" "sc"; OBid "a" (Some 100%Z); OBid "b" (Some 100%Z)].

(** ... then C packs, A bids (turn at B), and B leaves. *)
Definition leave_trace : list op :=
  (three_bids ++ [OPack "c"; OBid "a" (Some 100%Z); OLeave "b"])%list.

(** Two packed players, the turn at index 0. *)
Definition two_packed : room :=
  mkRoom "1234" "A" 1000 [set_packed pA true; set_packed pB true] 0 0 1 [] 0.

(** The room reached from [created] by a run of requests. *)
Definition after_run (os : list op) : room :=
  match (run (Some created) os).1 with Some r => r | None => created end.

(** Three players after A and B have bid 100 each: pool 200, turn at C. *)
Definition bid_room : room := after_run three_bids.

(** Two players after A has bid 100: the turn is at B. *)
Definition duel : room := after_run [OJoin "B" "b" "sb"; OBid "a" (Some 100%Z)].

(** The events of a successful reply. *)
Definition ok_events (rep : reply) : list event :=
  match rep with Ok evs => evs | Err _ => [] end.

End Samples.

(* ------------------------------------------------------------------ *)
(** ** Measures of a room *)

Module Measures.
Import Room.

(** The sum of the players' balances. *)
Fixpoint sum_balances (ps : list player) : Z :=
  match ps with
  | [] => 0%Z
  | p :: ps' => (p.(balance) + sum_balances ps')%Z
  end.

(** The money of a room: the balances and the pool. *)
Definition total_money (r : room) : Z := (sum_balances r.(players) + r.(pool))%Z.

(** The number of players flagged [isCreator]. *)
Definition creator_count (r : room) : nat := length (List.filter isCreator r.(players)).

(** The players' names as the duplicate check of [joinRoom] compares them. *)
Definition lower_names (r : room) : list string :=
  map (fun p => toLowerCase p.(name)) r.(players).

(** [room.players[room.currentTurn]] is a player. *)
Definition turn_valid (r : room) : bool := (r.(currentTurn) <? length r.(players))%nat.

(** The starting balance, the pool and every balance are non-negative. *)
Definition nonneg (r : room) : bool :=
  (0 <=? r.(startingBalance))%Z && (0 <=? r.(pool))%Z &&
  forallb (fun p => 0 <=? p.(balance))%Z r.(players).

(** The pool is empty exactly when no bid is counted, and the round is
    at least 1. *)
Definition pool_in_sync (r : room) : bool :=
  (0 <=? r.(pool))%Z && (0 <=? r.(totalBids))%Z &&
  Bool.eqb (r.(pool) =? 0)%Z (r.(totalBids) =? 0)%Z && (1 <=? r.(round))%Z.

(** The game log holds at most 50 entries. *)
Definition log_bounded (r : room) : bool := (length r.(gameLog) <=? 50)%nat.

(** [rooms'] has a room under the same codes as [rooms], and differs from
    it at most under the code [rc]. *)
Definition only_at (rooms rooms' : Registry.registry) (rc : jsval) : Prop :=
  (forall c, is_Some (rooms' !! c) <-> is_Some (rooms !! c)) /\
  (forall c, rc <> JString c -> rooms' !! c = rooms !! c).

(** Every player's name is an ASCII string. *)
Definition ascii_names (r : room) : bool := forallb is_ascii (map name r.(players)).

(** A request whose player name, if it carries one for a new player, is
    an ASCII string. *)
Definition ascii_op (o : Handlers.op) : bool :=
  match o with Handlers.OJoin n _ _ => is_ascii n | _ => true end.

(** Every player is packed, or the player at [currentTurn] is not. *)
Definition turn_on_unpacked (r : room) : bool :=
  forallb packed r.(players) || negb (packed_at r.(players) r.(currentTurn)).

End Measures.

(* ------------------------------------------------------------------ *)
(** ** Turn advance *)

Module Turn.
Import Room.

Lemma skip_packed_spec (ps : list player) (total : nat) :
  total <> 0%nat ->
  forall budget ct, (ct < total)%nat ->
  exists k, (k <= budget)%nat /\
    (skip_packed ps total ct budget).1 = ((ct + k) mod total)%nat /\
    (skip_packed ps total ct budget).2 = (budget - k)%nat /\
    (forall j, (j < k)%nat -> packed_at ps ((ct + j) mod total) = true) /\
    ((skip_packed ps total ct budget).2 <> 0%nat ->
       packed_at ps (skip_packed ps total ct budget).1 = false).
Proof.
  intros Htot budget. induction budget as [|b IH]; intros ct Hct; simpl.
  - exists 0%nat. rewrite Nat.add_0_r, Nat.mod_small by lia.
    repeat split; intros; lia.
  - destruct (packed_at ps ct) eqn:Hp.
    + destruct (IH ((ct + 1) mod total)%nat) as (k & Hk & H1 & H2 & H3 & H4).
      { apply Nat.mod_upper_bound; lia. }
      exists (S k). repeat split.
      * lia.
      * rewrite H1, Nat.Div0.add_mod_idemp_l. f_equal; lia.
      * rewrite H2; lia.
      * intros j Hj. destruct j as [|j].
        -- rewrite Nat.add_0_r, Nat.mod_small by lia. exact Hp.
        -- specialize (H3 j ltac:(lia)). rewrite Nat.Div0.add_mod_idemp_l in H3.
           replace (ct + S j)%nat with (ct + 1 + j)%nat by lia. exact H3.
      * exact H4.
    + exists 0%nat. simpl. rewrite Nat.add_0_r, Nat.mod_small by lia.
      repeat split; auto; lia.
Qed.

(** Every index is reached by the circular scan. *)
Lemma circular_cover (total s i : nat) :
  (s < total)%nat -> (i < total)%nat ->
  exists j, (j < total)%nat /\ ((s + j) mod total)%nat = i.
Proof.
  intros Hs Hi. exists ((i + total - s) mod total)%nat. split.
  - apply Nat.mod_upper_bound; lia.
  - rewrite Nat.Div0.add_mod_idemp_r.
    replace (s + (i + total - s))%nat with (i + 1 * total)%nat by lia.
    rewrite Nat.Div0.mod_add, Nat.mod_small by lia. reflexivity.
Qed.

Lemma findIndex_None {A} (f : A -> bool) (l : list A) :
  findIndex f l = None -> forall i x, l !! i = Some x -> f x = false.
Proof.
  induction l as [|y l IH]; simpl; intros H i x Hx; [done|].
  destruct (f y) eqn:Hy; [done|].
  destruct (findIndex f l) eqn:E; [done|].
  destruct i; simpl in Hx; [congruence|]. eapply IH; eauto.
Qed.

Lemma findIndex_None_iff (ps : list player) :
  first_active ps = None <-> forall i p, ps !! i = Some p -> p.(packed) = true.
Proof.
  unfold first_active. split.
  - intros H i p Hp. pose proof (findIndex_None _ _ H i p Hp) as E.
    cbn beta in E. destruct (packed p); [reflexivity | discriminate E].
  - induction ps as [|q ps IH]; simpl; intros H; [done|].
    rewrite (H 0%nat q eq_refl). simpl.
    rewrite IH; [done|]. intros i p Hp. exact (H (S i) p Hp).
Qed.

Lemma findIndex_Some {A} (f : A -> bool) (l : list A) i :
  findIndex f l = Some i ->
  (exists x, l !! i = Some x /\ f x = true) /\
  (forall j y, (j < i)%nat -> l !! j = Some y -> f y = false).
Proof.
  revert i. induction l as [|y l IH]; simpl; intros i H; [done|].
  destruct (f y) eqn:Hy.
  - injection H as <-. split; [eauto|]. intros j z Hj; lia.
  - destruct (findIndex f l) as [k|] eqn:E; simpl in H; [|done].
    injection H as <-. destruct (IH k eq_refl) as [H1 H2]. split; [done|].
    intros [|j] z Hj Hz; simpl in Hz; [congruence|]. eapply H2; eauto; lia.
Qed.

Lemma packed_at_lookup (ps : list player) i :
  (i < length ps)%nat -> exists p, ps !! i = Some p /\ packed_at ps i = p.(packed).
Proof.
  intros Hi. destruct (lookup_lt_is_Some_2 ps i Hi) as [p Hp].
  exists p. unfold packed_at. rewrite Hp. done.
Qed.

(** All positions are packed once the scan has used its whole budget. *)
Lemma scan_all_packed (ps : list player) (N s : nat) :
  N = length ps -> (s < N)%nat ->
  (forall j, (j < N)%nat -> packed_at ps ((s + j) mod N) = true) ->
  forall i p, ps !! i = Some p -> p.(packed) = true.
Proof.
  intros HN Hs Hall i p Hp.
  assert (Hi : (i < N)%nat) by (subst; eapply lookup_lt_Some; eauto).
  destruct (circular_cover N s i Hs Hi) as (j & Hj & Heq).
  specialize (Hall j Hj). rewrite Heq in Hall. unfold packed_at in Hall.
  rewrite Hp in Hall. exact Hall.
Qed.

Lemma moveToNextActivePlayer_players (r : room) :
  (moveToNextActivePlayer r).(players) = r.(players).
Proof.
  unfold moveToNextActivePlayer. destruct (players r) eqn:E; [done|].
  destruct (skip_packed _ _ _ _) as [c b]. simpl. done.
Qed.

Lemma moveToNextActivePlayer_currentTurn (r : room) (p0 : player) (ps0 : list player) :
  r.(players) = p0 :: ps0 ->
  let ps := p0 :: ps0 in
  let N := length ps in
  let s := ((r.(currentTurn) + 1) mod N)%nat in
  (moveToNextActivePlayer r).(currentTurn) =
    let '(ct1, b) := skip_packed ps N s N in
    match b with
    | O => match first_active ps with Some i => i | None => ct1 end
    | S _ => ct1
    end.
Proof.
  intros Hps. unfold moveToNextActivePlayer. rewrite Hps.
  cbv zeta. destruct (skip_packed _ _ _ _) as [c b]. reflexivity.
Qed.

(** C2 (amended).  For a room with N >= 1 players, [moveToNextActivePlayer]
    keeps the players and sets [currentTurn] to the first index, scanning
    circularly from [(currentTurn + 1) mod N], whose player is not packed;
    so it never selects a packed player while an unpacked one exists.  If
    every player is packed, [currentTurn] becomes [(currentTurn + 1) mod N]. *)
Theorem moveToNextActivePlayer_spec (r : room) :
  r.(players) <> [] ->
  let N := length r.(players) in
  let s := ((r.(currentTurn) + 1) mod N)%nat in
  let ct' := (moveToNextActivePlayer r).(currentTurn) in
  (moveToNextActivePlayer r).(players) = r.(players) /\
  ((exists i p, r.(players) !! i = Some p /\ p.(packed) = false) ->
     exists k, (k < N)%nat /\ ct' = ((s + k) mod N)%nat /\ (ct' < N)%nat /\
       packed_at r.(players) ct' = false /\
       forall j, (j < k)%nat -> packed_at r.(players) ((s + j) mod N) = true) /\
  ((forall i p, r.(players) !! i = Some p -> p.(packed) = true) -> ct' = s).
Proof.
  intros Hne. destruct (players r) as [|p0 ps0] eqn:Hps; [done|].
  cbv zeta. rewrite moveToNextActivePlayer_players, Hps.
  rewrite (moveToNextActivePlayer_currentTurn r p0 ps0 Hps). cbv zeta.
  set (ps := p0 :: ps0). set (N := length ps).
  set (s := ((currentTurn r + 1) mod N)%nat).
  assert (HN : N <> 0%nat) by (subst N ps; simpl; lia).
  assert (Hs : (s < N)%nat) by (apply Nat.mod_upper_bound; exact HN).
  destruct (skip_packed_spec ps N HN N s Hs) as (k & Hk & H1 & H2 & H3 & H4).
  destruct (skip_packed ps N s N) as [ct1 b] eqn:Hsk. cbn [fst snd] in H1, H2, H4.
  split; [done|]. split.
  - intros (i & p & Hp & Hact).
    destruct b as [|b'].
    + exfalso. assert (k = N) by lia. subst k.
      pose proof (scan_all_packed ps N s eq_refl Hs H3 i p Hp). congruence.
    + exists k. assert (k < N)%nat by lia.
      split; [lia|]. split; [exact H1|]. split.
      * rewrite H1. apply Nat.mod_upper_bound; exact HN.
      * split; [apply H4; lia | exact H3].
  - intros Hall. destruct b as [|b'].
    + assert (k = N) by lia. subst k.
      rewrite (proj2 (findIndex_None_iff ps) Hall).
      rewrite H1. replace (s + N)%nat with (s + 1 * N)%nat by lia.
      rewrite Nat.Div0.mod_add, Nat.mod_small by exact Hs. reflexivity.
    + exfalso. specialize (H4 ltac:(lia)).
      assert (Hlt : (ct1 < N)%nat) by (rewrite H1; apply Nat.mod_upper_bound; exact HN).
      destruct (packed_at_lookup ps ct1 Hlt) as (p & Hp & Hpa).
      rewrite (Hall ct1 p Hp) in Hpa. congruence.
Qed.

End Turn.

(* ------------------------------------------------------------------ *)
(** ** Failed requests *)

Module Failures.
Import Room Handlers.

Ltac no_mutation :=
  repeat (case_match; simplify_eq/=; try discriminate); intros Hrun; simplify_eq/=; done.

Lemma joinRoom_err r n i s r' e : joinRoom r n i s = (r', Err e) -> r' = r.
Proof. unfold joinRoom. no_mutation. Qed.
Lemma rejoinRoom_err r i n s r' e : rejoinRoom r i n s = (r', Err e) -> r' = r.
Proof. unfold rejoinRoom. no_mutation. Qed.
Lemma placeBid_err r i a r' e : placeBid r i a = (r', Err e) -> r' = r.
Proof. unfold placeBid. no_mutation. Qed.
Lemma packCards_err r i r' e : packCards r i = (r', Err e) -> r' = r.
Proof. unfold packCards. no_mutation. Qed.
Lemma resetPool_err r i r' e : resetPool r i = (r', Err e) -> r' = r.
Proof. unfold resetPool. no_mutation. Qed.
Lemma declareWinner_err r i w r' e : declareWinner r i w = (r', Err e) -> r' = r.
Proof. unfold declareWinner. no_mutation. Qed.
Lemma removePlayer_err r i t r' e : removePlayer r i t = (r', Err e) -> r' = r.
Proof. unfold removePlayer. no_mutation. Qed.
Lemma changeTurn_err r i t r' e : changeTurn r i t = (r', Err e) -> r' = r.
Proof. unfold changeTurn. no_mutation. Qed.

Lemma dropPlayer_ok r i p m r' e : dropPlayer r i p m <> (r', Err e).
Proof. unfold dropPlayer. repeat case_match; simplify_eq/=; discriminate. Qed.

(** C5.  Every request on a room that fails (join, rejoin, bid, pack,
    reset, declare winner, remove, change turn; leave and the disconnect
    timeout never fail) reports its error and leaves the whole room —
    players, balances, pool, round, totalBids, currentTurn and the game
    log — exactly as it was. *)
Theorem step_error_leaves_room (r : room) (o : op) (r' : option room) (e : err) :
  step r o = (r', Err e) -> r' = Some r.
Proof.
  destruct o; cbn [step]; unfold keep.
  - destruct (joinRoom r _ _ _) as [x y] eqn:E; intros H; simplify_eq/=.
    rewrite (joinRoom_err _ _ _ _ _ _ E); done.
  - destruct (rejoinRoom r _ _ _) as [x y] eqn:E; intros H; simplify_eq/=.
    rewrite (rejoinRoom_err _ _ _ _ _ _ E); done.
  - destruct (placeBid r _ _) as [x y] eqn:E; intros H; simplify_eq/=.
    rewrite (placeBid_err _ _ _ _ _ E); done.
  - destruct (packCards r _) as [x y] eqn:E; intros H; simplify_eq/=.
    rewrite (packCards_err _ _ _ _ E); done.
  - destruct (resetPool r _) as [x y] eqn:E; intros H; simplify_eq/=.
    rewrite (resetPool_err _ _ _ _ E); done.
  - destruct (declareWinner r _ _) as [x y] eqn:E; intros H; simplify_eq/=.
    rewrite (declareWinner_err _ _ _ _ _ E); done.
  - destruct (removePlayer r _ _) as [x y] eqn:E; intros H; simplify_eq/=.
    rewrite (removePlayer_err _ _ _ _ _ E); done.
  - destruct (changeTurn r _ _) as [x y] eqn:E; intros H; simplify_eq/=.
    rewrite (changeTurn_err _ _ _ _ _ E); done.
  - unfold leaveRoom. repeat case_match; intros Hst; simplify_eq/=; try done.
    exfalso. eapply dropPlayer_ok. eassumption.
  - unfold disconnectTimeout. repeat case_match; intros Hst; simplify_eq/=; try done.
    exfalso. eapply dropPlayer_ok. eassumption.
Qed.

End Failures.

(* ------------------------------------------------------------------ *)
(** ** The pool *)

Module Pool.
Import Room Handlers SpecModel.

Lemma pool_addToGameLog r m : (addToGameLog r m).(pool) = r.(pool).
Proof. reflexivity. Qed.

Lemma pool_moveToNextActivePlayer r : (moveToNextActivePlayer r).(pool) = r.(pool).
Proof.
  unfold moveToNextActivePlayer. destruct (players r); [done|].
  destruct (skip_packed _ _ _ _) as [c b]. reflexivity.
Qed.

Lemma pool_ensureActiveTurn r : (ensureActiveTurn r).(pool) = r.(pool).
Proof.
  unfold ensureActiveTurn. repeat case_match; simplify_eq/=; done.
Qed.

Create Rewrite HintDb pool_db.

#[local] Hint Rewrite pool_addToGameLog pool_moveToNextActivePlayer
  pool_ensureActiveTurn : pool_db.

Lemma dropPlayer_pool r i p m r' rep :
  dropPlayer r i p m = (Some r', rep) -> r'.(pool) = r.(pool).
Proof. unfold dropPlayer. repeat case_match; intros Hd; simplify_eq/=; done. Qed.

Lemma placeBid_pool r i a r' rep :
  placeBid r i a = (r', rep) ->
  r'.(pool) = bid_sum_step r.(pool) (OBid i a) rep /\
  (match rep with Ok _ => exists z, a = Some z /\ (0 < z)%Z | Err _ => True end).
Proof.
  unfold placeBid. repeat case_match; intros Hb; simplify_eq/=;
    autorewrite with pool_db; simpl; try (split; [done|]); eauto with lia.
Qed.

Lemma packCards_pool r i r' rep :
  packCards r i = (r', rep) -> r'.(pool) = bid_sum_step r.(pool) (OPack i) rep.
Proof.
  unfold packCards. repeat case_match; intros Hb; simplify_eq/=;
    autorewrite with pool_db; simpl; try done.
Qed.

Lemma step_pool r o r' rep :
  step r o = (Some r', rep) -> (0 <= r.(pool))%Z ->
  r'.(pool) = bid_sum_step r.(pool) o rep /\ (0 <= r'.(pool))%Z.
Proof.
  intros Hs Hnn. destruct o; cbn [step] in Hs; unfold keep in Hs.
  - destruct (joinRoom r _ _ _) as [x y] eqn:E; injection Hs as <- <-.
    revert E. unfold joinRoom. repeat case_match; intros E; simplify_eq/=;
      autorewrite with pool_db; simpl; auto.
  - destruct (rejoinRoom r _ _ _) as [x y] eqn:E; injection Hs as <- <-.
    revert E. unfold rejoinRoom. repeat case_match; intros E; simplify_eq/=;
      autorewrite with pool_db; simpl; auto.
  - destruct (placeBid r _ _) as [x y] eqn:E; injection Hs as <- <-.
    destruct (placeBid_pool _ _ _ _ _ E) as [H1 H2]. rewrite H1. split; [done|].
    destruct y as [evs|e]; simpl in *; [|lia].
    destruct H2 as (z & -> & Hz). lia.
  - destruct (packCards r _) as [x y] eqn:E; injection Hs as <- <-.
    rewrite (packCards_pool _ _ _ _ E). split; [done|].
    destruct y; simpl; [case_match|]; lia.
  - destruct (resetPool r _) as [x y] eqn:E; injection Hs as <- <-.
    revert E. unfold resetPool. repeat case_match; intros E; simplify_eq/=; auto with lia.
  - destruct (declareWinner r _ _) as [x y] eqn:E; injection Hs as <- <-.
    revert E. unfold declareWinner. repeat case_match; intros E; simplify_eq/=; auto with lia.
  - destruct (removePlayer r _ _) as [x y] eqn:E; injection Hs as <- <-.
    revert E. unfold removePlayer. repeat case_match; intros E; simplify_eq/=; auto with lia.
  - destruct (changeTurn r _ _) as [x y] eqn:E; injection Hs as <- <-.
    revert E. unfold changeTurn. repeat case_match; intros E; simplify_eq/=; auto with lia.
  - revert Hs. unfold leaveRoom. repeat case_match; intros Hs; simplify_eq/=;
      try (simpl; auto; fail);
      rewrite (dropPlayer_pool _ _ _ _ _ _ Hs); destruct rep; simpl; auto.
  - revert Hs. unfold disconnectTimeout. repeat case_match; intros Hs; simplify_eq/=;
      try (simpl; auto; fail);
      rewrite (dropPlayer_pool _ _ _ _ _ _ Hs); destruct rep; simpl; auto.
Qed.

Lemma run_pool (os : list op) :
  forall (r : room) (rf : room),
  (0 <= r.(pool))%Z ->
  (run (Some r) os).1 = Some rf ->
  rf.(pool) = bids_since_settlement r.(pool) (run (Some r) os).2 /\ (0 <= rf.(pool))%Z.
Proof.
  induction os as [|o os IH]; intros r rf Hnn Hrun.
  - simpl in *. simplify_eq. done.
  - simpl in Hrun |- *. destruct (step r o) as [[r'|] rep] eqn:Hs.
    + destruct (step_pool r o r' rep Hs Hnn) as [Hp Hnn'].
      destruct (run (Some r') os) as [rf' tr] eqn:Hr. simpl in *.
      rewrite <- Hp. specialize (IH r' rf Hnn'). rewrite Hr in IH. apply IH. done.
    + destruct os; simpl in Hrun; discriminate.
Qed.

(** C6.  Starting from a room whose pool is 0 (as [createRoom] makes it),
    after any sequence of requests the pool equals the sum of the amounts
    of the successful [placeBid] requests since the last settlement
    (declared winner or automatic win) or pool reset, and it is never
    negative. *)
Theorem pool_is_bids_since_settlement (r0 : room) (os : list op) (rf : room) :
  r0.(pool) = 0%Z ->
  (run (Some r0) os).1 = Some rf ->
  rf.(pool) = bids_since_settlement 0 (run (Some r0) os).2 /\ (0 <= rf.(pool))%Z.
Proof.
  intros H0 Hrun. destruct (run_pool os r0 rf ltac:(lia) Hrun) as [H1 H2].
  rewrite H0 in H1. done.
Qed.

End Pool.

(* ------------------------------------------------------------------ *)
(** ** Settlement *)

Module Settle.
Import Room Handlers SpecModel Turn.

Lemma lookup_map_player (f : player -> player) (l : list player) i :
  map f l !! i = option_map f (l !! i).
Proof. revert i. induction l as [|x l IH]; intros [|i]; simpl; auto. Qed.

Lemma findIndex_alter (g : player -> bool) (f : player -> player) l i :
  (forall p, g (f p) = g p) -> findIndex g (alter f i l) = findIndex g l.
Proof.
  intros Hg. revert i. induction l as [|x l IH]; intros [|i]; simpl; auto.
  - rewrite Hg. done.
  - change (list_alter f i l) with (alter f i l). rewrite IH. done.
Qed.

Lemma findIndex_NoDup (l : list player) j q :
  NoDup (map id l) -> l !! j = Some q -> findIndex (id_is q.(id)) l = Some j.
Proof.
  revert j. induction l as [|x l IH]; intros j Hnd Hj; [done|].
  simpl in Hnd. apply NoDup_cons in Hnd as [Hnin Hnd].
  destruct j as [|j]; simpl in Hj.
  - injection Hj as <-. simpl. unfold id_is. rewrite String.eqb_refl. done.
  - simpl. unfold id_is at 1. destruct (String.eqb (id x) (id q)) eqn:E.
    + apply String.eqb_eq in E. exfalso. apply Hnin. rewrite E.
      apply list_elem_of_In, in_map. apply list_elem_of_In.
      eapply list_elem_of_lookup_2. exact Hj.
    + rewrite (IH j Hnd Hj). done.
Qed.

(** With exactly one element satisfying [f], [findIndex f] names it. *)
Lemma filter_one {A} (f : A -> bool) (l : list A) j :
  findIndex f l = Some j -> length (List.filter f l) = 1%nat ->
  forall k x, l !! k = Some x -> f x = true -> k = j.
Proof.
  revert j. induction l as [|y l IH]; intros j Hj Hlen k x Hx Hfx; [done|].
  simpl in Hj, Hlen. destruct (f y) eqn:Hy.
  - injection Hj as <-. simpl in Hlen.
    assert (Hnil : List.filter f l = []) by (destruct (List.filter f l); simpl in *; [done|lia]).
    destruct k as [|k]; [done|]. simpl in Hx. exfalso.
    assert (Hin : In x (List.filter f l)).
    { apply filter_In. split; [|done]. apply list_elem_of_In.
      eapply list_elem_of_lookup_2. exact Hx. }
    rewrite Hnil in Hin. done.
  - destruct (findIndex f l) as [j'|] eqn:E; simpl in Hj; [|done].
    injection Hj as <-. destruct k as [|k]; simpl in Hx; [congruence|].
    f_equal. eapply IH; eauto.
Qed.

Lemma moveToNextActivePlayer_shape r :
  exists c, moveToNextActivePlayer r = set_currentTurn r c.
Proof.
  unfold moveToNextActivePlayer. destruct (players r) eqn:E.
  - exists (currentTurn r). destruct r; simpl in *; subst; done.
  - destruct (skip_packed _ _ _ _) as [c b]. eauto.
Qed.

Lemma ensureActiveTurn_unpacked r p :
  r.(players) !! r.(currentTurn) = Some p -> p.(packed) = false -> ensureActiveTurn r = r.
Proof.
  intros Hp Hu. unfold ensureActiveTurn. destruct (players r) eqn:E; [done|].
  rewrite Hp, Hu. done.
Qed.

(** [autoWin] performs the settlement once the winner's index is found again. *)
Lemma autoWin_settlement r j w :
  findIndex (id_is w.(id)) (alter (credit r.(pool)) j r.(players)) = Some j ->
  without_log (autoWin r j w) = without_log (settlement r j).
Proof.
  intros Hf. unfold autoWin. cbn. rewrite Hf. reflexivity.
Qed.

Lemma autoWin_is_settlement r j w :
  findIndex (id_is w.(id)) (alter (credit r.(pool)) j r.(players)) = Some j ->
  autoWin r j w =
    set_gameLog (settlement r j) (addToGameLog r (LAutoWin w.(name) r.(pool))).(gameLog).
Proof. intros Hf. unfold autoWin. cbn. rewrite Hf. reflexivity. Qed.

Lemma settlement_ignores_turn_and_log r c m j :
  without_log (settlement (set_currentTurn (addToGameLog r m) c) j) =
  without_log (settlement r j).
Proof. reflexivity. Qed.

Lemma without_log_set_gameLog r l : without_log (set_gameLog r l) = without_log r.
Proof. reflexivity. Qed.

Lemma id_is_true p x : id_is x p = true -> p.(id) = x.
Proof. unfold id_is. apply String.eqb_eq. Qed.

Lemma declareWinner_settles r h wid r' evs :
  declareWinner r h wid = (r', Ok evs) ->
  exists w, findIndex (id_is wid) r.(players) = Some w /\
            without_log r' = without_log (settlement r w).
Proof.
  unfold declareWinner.
  destruct (find (id_is h) (players r)) as [hp|]; [|intros; discriminate].
  destruct (isCreator hp); simpl; [|intros; discriminate].
  destruct (findIndex (id_is wid) (players r)) as [wi|] eqn:Ef; [|intros; discriminate].
  destruct (players r !! wi) as [winner|] eqn:Ew; [|intros; discriminate].
  destruct (pool r <=? 0)%Z; [intros; discriminate|].
  intros H. injection H as <- <-. exists wi. split; [done|].
  assert (Hid : winner.(id) = wid).
  { destruct (findIndex_Some _ _ _ Ef) as [(x & Hx & Htrue) _].
    rewrite Ew in Hx. injection Hx as <-. apply id_is_true; exact Htrue. }
  assert (Hfi : findIndex (id_is (id winner)) (alter (credit (pool r)) wi (players r)) = Some wi).
  { rewrite findIndex_alter by reflexivity. rewrite Hid. exact Ef. }
  unfold addToGameLog, set_players, set_pool, set_round, set_totalBids, set_gameLog,
    set_currentTurn. cbn [players pool round]. rewrite Hfi. reflexivity.
Qed.

Lemma packCards_settles r pid r' evs :
  NoDup (map id r.(players)) ->
  packCards r pid = (r', Ok evs) ->
  existsb is_winner_event evs = true ->
  exists i w, findIndex (id_is pid) r.(players) = Some i /\
    let rp := set_players r (alter (fun p => set_packed p true) i r.(players)) in
    (forall j q, rp.(players) !! j = Some q -> (q.(packed) = false <-> j = w)) /\
    without_log r' = without_log (settlement rp w).
Proof.
  intros Hnd. unfold packCards.
  destruct (findIndex (id_is pid) (players r)) as [pi|] eqn:Epi; [|intros; discriminate].
  destruct (players r !! pi) as [player|] eqn:Epl; [|intros; discriminate].
  destruct (packed player); [intros; discriminate|].
  destruct (Nat.eqb (currentTurn r) pi); simpl; [|intros; discriminate].
  set (rp := set_players r (alter (fun p => set_packed p true) pi (players r))).
  set (r2 := addToGameLog rp (LPacked (name player))).
  destruct (moveToNextActivePlayer_shape r2) as [c Hc]. rewrite Hc.
  set (ps := alter (fun p => set_packed p true) pi (players r)).
  change (players (set_currentTurn r2 c)) with ps.
  destruct (Nat.eqb (length (List.filter (fun p => negb (packed p)) ps)) 1) eqn:Elen;
    [|intros H; injection H as <- <-; discriminate].
  destruct (findIndex (fun p => negb (packed p)) ps) as [j|] eqn:Ej;
    [|intros H; injection H as <- <-; discriminate].
  destruct (ps !! j) as [winner|] eqn:Ew;
    [|intros H; injection H as <- <-; discriminate].
  intros H _. injection H as <- <-.
  exists pi, j. split; [done|]. cbv zeta.
  apply Nat.eqb_eq in Elen.
  split.
  - intros k q Hq. change (players rp) with ps in Hq. split.
    + intros Hu. eapply filter_one; [exact Ej | exact Elen | exact Hq |].
      cbn beta. rewrite Hu. reflexivity.
    + intros Hk. subst k. assert (q = winner) as -> by (unfold ps in Ew; congruence).
      destruct (findIndex_Some _ _ _ Ej) as [(x & Hx & Hxt) _].
      rewrite Ew in Hx. injection Hx as <-. destruct (packed winner); done.
  - assert (Hnd' : NoDup (map id ps)).
    { subst ps. replace (map id (alter (fun p => set_packed p true) pi (players r)))
        with (map id (players r)); [exact Hnd|].
      clear. generalize (players r) as l. intros l. revert pi.
      induction l as [|x l IH]; intros [|i]; simpl; auto. f_equal. apply IH. }
    assert (Hfi : findIndex (id_is (id winner))
                    (alter (credit (pool (set_currentTurn r2 c))) j
                       (players (set_currentTurn r2 c))) = Some j).
    { rewrite findIndex_alter by reflexivity. apply findIndex_NoDup; done. }
    rewrite (autoWin_is_settlement _ _ _ Hfi).
    set (L := gameLog (addToGameLog (set_currentTurn r2 c) _)).
    assert (Hj : (j < length ps)%nat) by (eapply lookup_lt_Some; eauto).
    destruct (lookup_lt_is_Some_2 ps j Hj) as [wp Hwp].
    rewrite (ensureActiveTurn_unpacked _ (unpack (credit (pool (set_currentTurn r2 c)) wp))).
    + rewrite without_log_set_gameLog. subst r2. rewrite settlement_ignores_turn_and_log.
      reflexivity.
    + unfold settlement. cbn [players currentTurn set_gameLog set_currentTurn set_totalBids
        set_round set_pool set_players].
      rewrite lookup_map_player, list_lookup_alter_eq.
      assert (Hwp' : players r2 !! j = Some wp) by exact Hwp.
      rewrite Hwp'. reflexivity.
    + reflexivity.
Qed.

Lemma settlement_effects (r : room) (w : nat) (p : player) :
  r.(players) !! w = Some p ->
  let r' := settlement r w in
  r'.(players) !! w = Some (set_packed (set_balance p (p.(balance) + r.(pool))) false) /\
  r'.(pool) = 0%Z /\ r'.(round) = (r.(round) + 1)%Z /\ r'.(totalBids) = 0%Z /\
  r'.(currentTurn) = w /\
  (forall j q, r'.(players) !! j = Some q -> q.(packed) = false) /\
  length r'.(players) = length r.(players).
Proof.
  intros Hp. cbv zeta. unfold settlement. cbn.
  rewrite lookup_map_player, list_lookup_alter_eq, Hp. split; [reflexivity|].
  repeat split.
  - intros j q Hq. rewrite lookup_map_player in Hq.
    destruct (_ !! j) in Hq; simpl in Hq; [|discriminate]. injection Hq as <-. reflexivity.
  - rewrite length_map, length_alter. reflexivity.
Qed.

(** C8.  A successful [declareWinner] and a [packCards] that leaves one
    player unpacked both perform the same settlement (up to the game log):
    on the room as it was, resp. on the room with the packing player packed,
    at the winner's index, which for [packCards] is the only unpacked one.
    The settlement credits the winner with the pre-settlement pool, sets the
    pool and [totalBids] to 0, increments the round by exactly 1, unpacks
    every player and gives the turn to the winner's index.  (Player ids are
    distinct, as [generatePlayerId] makes them.) *)
Theorem settlement_paths_agree :
  (forall r h wid r' evs,
     declareWinner r h wid = (r', Ok evs) ->
     exists w, findIndex (id_is wid) r.(players) = Some w /\
               without_log r' = without_log (settlement r w)) /\
  (forall r pid r' evs,
     NoDup (map id r.(players)) ->
     packCards r pid = (r', Ok evs) ->
     existsb is_winner_event evs = true ->
     exists i w, findIndex (id_is pid) r.(players) = Some i /\
       let rp := set_players r (alter (fun p => set_packed p true) i r.(players)) in
       (forall j q, rp.(players) !! j = Some q -> (q.(packed) = false <-> j = w)) /\
       without_log r' = without_log (settlement rp w)) /\
  (forall r w p, r.(players) !! w = Some p ->
     let r' := settlement r w in
     r'.(players) !! w = Some (set_packed (set_balance p (p.(balance) + r.(pool))) false) /\
     r'.(pool) = 0%Z /\ r'.(round) = (r.(round) + 1)%Z /\ r'.(totalBids) = 0%Z /\
     r'.(currentTurn) = w /\
     (forall j q, r'.(players) !! j = Some q -> q.(packed) = false) /\
     length r'.(players) = length r.(players)).
Proof.
  split; [|split].
  - exact declareWinner_settles.
  - exact packCards_settles.
  - exact settlement_effects.
Qed.

End Settle.

(* ------------------------------------------------------------------ *)
(** ** Declaring a winner: the order of the checks *)

Module Declare.
Import Room Handlers Turn.

(** C7 (amended).  For a request by the room's creator, [declareWinner]
    fails with 'Winner not found' whenever the winner id matches no player,
    whatever the pool; it fails with 'Pool is empty' when the winner is
    present and the pool is <= 0.  Nothing changes in either case. *)
Theorem declareWinner_check_order (r : room) (h wid : string) (hp : player) :
  find (id_is h) r.(players) = Some hp -> hp.(isCreator) = true ->
  (findIndex (id_is wid) r.(players) = None ->
     declareWinner r h wid = (r, Err EWinnerNotFound)) /\
  (findIndex (id_is wid) r.(players) <> None -> (r.(pool) <= 0)%Z ->
     declareWinner r h wid = (r, Err EPoolEmpty)).
Proof.
  intros Hh Hc. unfold declareWinner. rewrite Hh, Hc. simpl. split.
  - intros ->. reflexivity.
  - intros Hf Hp. destruct (findIndex (id_is wid) (players r)) as [wi|] eqn:E; [|done].
    destruct (findIndex_Some _ _ _ E) as [(x & Hx & _) _]. rewrite Hx.
    apply Z.leb_le in Hp. rewrite Hp. reflexivity.
Qed.

(** C7 (counterexample).  In the freshly created room (pool 0), the
    creator's [declareWinner] for an unknown id reports 'Winner not found',
    not 'Pool is empty'. *)
Lemma declareWinner_empty_pool_unknown_winner :
  (Samples.created.(pool) <= 0)%Z /\
  (declareWinner Samples.created "a" "nobody").2 = Err EWinnerNotFound /\
  (declareWinner Samples.created "a" "nobody").2 <> Err EPoolEmpty.
Proof. vm_compute. split; [discriminate|]. split; [reflexivity|discriminate]. Qed.

End Declare.

(* ------------------------------------------------------------------ *)
(** ** The turn after structural changes, on concrete runs *)

Module Runs.
Import Room Handlers Samples.

(** C2 (counterexample).  With every player packed, [moveToNextActivePlayer]
    moves the turn from index 0 to index 1 instead of leaving it. *)
Lemma moveToNextActivePlayer_all_packed_moves :
  (forall i p, two_packed.(players) !! i = Some p -> p.(packed) = true) /\
  (moveToNextActivePlayer two_packed).(currentTurn) = 1%nat /\
  two_packed.(currentTurn) = 0%nat.
Proof.
  split; [|split; reflexivity].
  intros [|[|i]] p Hp; simpl in Hp; try discriminate; injection Hp as <-; reflexivity.
Qed.

(** C1 (failing input).  Players A (creator), B, C with the turn at C
    (index 2); the creator removes B (index 1 < 2).  [removePlayer] first
    sees [currentTurn] (2) out of range of the two remaining players and
    resets it to 0 (A), where decrementing would have kept the turn on C. *)
Theorem removePlayer_before_turn_resets :
  match (run (Some created) three_bids).1 with
  | Some r =>
      map name r.(players) = ["A"; "B"; "C"] /\ r.(currentTurn) = 2%nat /\
      findIndex (id_is "b") r.(players) = Some 1%nat /\
      (removePlayer r "a" "b").2 = Ok [EvPlayerRemoved "sb" "A"; EvPlayerLeft "B"] /\
      map name (removePlayer r "a" "b").1.(players) = ["A"; "C"] /\
      (removePlayer r "a" "b").1.(currentTurn) = 0%nat
  | None => False
  end.
Proof. vm_compute. repeat split. Qed.

(** C3 (failing input).  A creates the room, B and C join, A and B bid, C
    packs, A bids (turn at B, index 1), B leaves: the turn stays at index 1,
    now the packed C, while A is unpacked.  (A removal of B by the creator
    instead of B leaving ends the same way.) *)
Theorem turn_on_packed_player_after_leave :
  match (run (Some created) leave_trace).1 with
  | Some r =>
      map name r.(players) = ["A"; "C"] /\ r.(currentTurn) = 1%nat /\
      packed_at r.(players) r.(currentTurn) = true /\
      (exists i p, r.(players) !! i = Some p /\ p.(packed) = false)
  | None => False
  end.
Proof.
  vm_compute. split; [reflexivity|]. split; [reflexivity|]. split; [reflexivity|].
  eexists 0%nat, _. split; [reflexivity|reflexivity].
Qed.

(** The same run ending in the creator removing B: the turn is left at
    index 1, the packed C, while A (index 0) is unpacked. *)
Lemma turn_on_packed_player_after_remove :
  match (run (Some created) (three_bids ++ [OPack "c"; OBid "a" (Some 100%Z); ORemove "a" "b"])%list).1 with
  | Some r => r.(currentTurn) = 1%nat /\ packed_at r.(players) r.(currentTurn) = true /\
              packed_at r.(players) 0 = false
  | None => False
  end.
Proof. vm_compute. repeat split. Qed.

End Runs.

(* ------------------------------------------------------------------ *)
(** ** Creating and rejoining rooms *)

Module Create.
Import Room Handlers Registry SpecModel.

Lemma room_codes_are_four_digits_check :
  forallb (fun k => let s := generateRoomCode (1000 + Z.of_nat k) in
                    Nat.eqb (String.length s) 4 && forallb is_digit (list_ascii_of_string s))
    (seq 0 (Z.to_nat 9000)) = true.
Proof. vm_compute. reflexivity. Qed.

Lemma room_codes_are_four_digits (n : Z) :
  (1000 <= n <= 9999)%Z ->
  String.length (generateRoomCode n) = 4%nat /\
  forallb is_digit (list_ascii_of_string (generateRoomCode n)) = true.
Proof.
  intros Hn. pose proof room_codes_are_four_digits_check as H.
  rewrite forallb_forall in H.
  assert (Hk : In (Z.to_nat (n - 1000)) (seq 0 (Z.to_nat 9000))).
  { apply in_seq. lia. }
  specialize (H _ Hk). cbv zeta beta in H.
  rewrite Z2Nat.id in H by lia. replace (1000 + (n - 1000))%Z with n in H by lia.
  apply andb_true_iff in H as [H1 H2]. apply Nat.eqb_eq in H1. done.
Qed.

(** C4 (amended).  [createRoom] with a creator name that is not blank
    stores the new room under [generateRoomCode n], the decimal numeral of
    the random draw [n] in [1000..9999], four digits, without looking at the
    registry: the stored room is the same whatever the registry held under
    that code (a live room there is replaced), and every other code keeps
    its room. *)
Theorem createRoom_overwrites (rooms rooms' : registry) (cn : string) (sb : jsval)
    (n : Z) (pid sid : string) :
  String.eqb (trim cn) "" = false -> (1000 <= n <= 9999)%Z ->
  let code := generateRoomCode n in
  String.length code = 4%nat /\
  forallb is_digit (list_ascii_of_string code) = true /\
  (createRoom rooms (JString cn) sb n pid sid).2 = Ok [EvRoomCreated] /\
  (exists rm, (createRoom rooms (JString cn) sb n pid sid).1 !! code = Some rm /\
              rm.(Room.code) = code /\
              (createRoom rooms' (JString cn) sb n pid sid).1 !! code = Some rm) /\
  (forall k, k <> code -> (createRoom rooms (JString cn) sb n pid sid).1 !! k = rooms !! k).
Proof.
  intros Hcn Hn. cbv zeta. destruct (room_codes_are_four_digits n Hn) as [H1 H2].
  unfold createRoom. assert (Hf : falsy (JString cn) = false).
  { simpl. destruct (String.eqb cn "") eqn:E; [|done].
    apply String.eqb_eq in E. subst cn. discriminate. }
  rewrite Hf, Hcn. simpl. split; [done|]. split; [done|]. split; [done|]. split.
  - eexists. rewrite !lookup_insert_eq. split; [reflexivity|]. split; reflexivity.
  - intros k Hk. rewrite lookup_insert_ne by congruence. reflexivity.
Qed.

(** C4 (counterexample).  With room 1234 live, a [createRoom] whose draw is
    1234 replaces it: afterwards the registry's room 1234 is the new one. *)
Lemma createRoom_clobbers_live_room :
  let rooms := {[ "1234" := Samples.created ]} : registry in
  rooms !! "1234" = Some Samples.created /\
  generateRoomCode 1234 = "1234" /\
  (createRoom rooms (JString "Bob") (JInt 500) 1234 "p" "s").1 !! "1234" <> Some Samples.created.
Proof. vm_compute. split; [reflexivity|]. split; [reflexivity|]. discriminate. Qed.

(** C10.  A [rejoinRoom] request whose player name is absent ([undefined]
    or [null]) or empty fails with 'Invalid rejoin data' and leaves the
    registry as it was, whatever room code and player id it carries —
    also those of a player of a live room. *)
Theorem rejoin_requires_name (rooms : registry) (roomCode playerId playerName : jsval)
    (sid : string) :
  playerName = JUndefined \/ playerName = JNull \/ playerName = JString "" ->
  rejoinRoomReg rooms roomCode playerId playerName sid = (rooms, Err ERejoinInvalid).
Proof.
  intros Hn. unfold rejoinRoomReg.
  assert (Hf : falsy playerName = true) by (destruct Hn as [-> | [-> | ->]]; reflexivity).
  rewrite Hf, !orb_true_r. reflexivity.
Qed.

End Create.

(* ------------------------------------------------------------------ *)
(** ** [parseInt] reads back a printed integer *)

Module Numerals.
Import JS SpecModel.












End Numerals.

(* ------------------------------------------------------------------ *)
(** ** The starting balance of a new room *)

Module StartBalance.
Import Room Handlers Registry SpecModel Numerals.




End StartBalance.

(* ------------------------------------------------------------------ *)
(** ** Invariants kept by every request *)

Module Inv.
Import Room Handlers Registry Turn Settle Measures.

Lemma findIndex_lt {A} (f : A -> bool) l i : findIndex f l = Some i -> (i < length l)%nat.
Proof.
  intros H. destruct (findIndex_Some f l i H) as [(x & Hx & _) _].
  eapply lookup_lt_Some; eauto.
Qed.

Lemma find_Some {A} (f : A -> bool) l x :
  find f l = Some x -> exists i, findIndex f l = Some i /\ l !! i = Some x.
Proof. unfold find. destruct (findIndex f l); [eauto|done]. Qed.

Lemma set_currentTurn_self r : set_currentTurn r r.(currentTurn) = r.
Proof. destruct r; reflexivity. Qed.

Lemma ensureActiveTurn_shape r : exists c, ensureActiveTurn r = set_currentTurn r c.
Proof.
  unfold ensureActiveTurn. destruct (players r) eqn:E.
  - exists (currentTurn r). rewrite set_currentTurn_self. done.
  - destruct (_ !! currentTurn r) as [cp|].
    + destruct (packed cp).
      * destruct (skip_packed _ _ _ _) as [c b]. eauto.
      * exists (currentTurn r). rewrite set_currentTurn_self. done.
    + exists (currentTurn r). rewrite set_currentTurn_self. done.
Qed.

(** The index [moveToNextActivePlayer] and [ensureActiveTurn] compute. *)
Lemma scan_result (ps : list player) (s : nat) (p0 : player) (ps0 : list player) :
  ps = p0 :: ps0 -> (s < length ps)%nat ->
  let '(ct1, b) := skip_packed ps (length ps) s (length ps) in
  let ct2 := match b with
             | O => match first_active ps with Some i => i | None => ct1 end
             | S _ => ct1 end in
  (ct2 < length ps)%nat /\
  ((exists i p, ps !! i = Some p /\ p.(packed) = false) ->
     exists p, ps !! ct2 = Some p /\ p.(packed) = false).
Proof.
  intros Hps Hs. set (N := length ps).
  assert (HN : N <> 0%nat) by (subst N; rewrite Hps; simpl; lia).
  destruct (skip_packed_spec ps N HN N s Hs) as (k & Hk & H1 & H2 & H3 & H4).
  destruct (skip_packed ps N s N) as [ct1 b] eqn:Hsk. cbn [fst snd] in H1, H2, H4.
  assert (Hlt1 : (ct1 < N)%nat) by (rewrite H1; apply Nat.mod_upper_bound; exact HN).
  destruct b as [|b'].
  - assert (k = N) by lia. subst k.
    assert (Hall := scan_all_packed ps N s eq_refl Hs H3).
    destruct (first_active ps) as [i|] eqn:Ef.
    + unfold first_active in Ef. split; [exact (findIndex_lt _ _ _ Ef)|].
      intros (j & p & Hp & Hu). rewrite (Hall j p Hp) in Hu. discriminate.
    + split; [exact Hlt1|]. intros (j & p & Hp & Hu). rewrite (Hall j p Hp) in Hu. discriminate.
  - split; [exact Hlt1|]. intros _. specialize (H4 ltac:(lia)).
    destruct (packed_at_lookup ps ct1 Hlt1) as (p & Hp & Hpa). exists p. split; congruence.
Qed.

Lemma moveToNextActivePlayer_range r :
  r.(players) <> [] ->
  ((moveToNextActivePlayer r).(currentTurn) < length r.(players))%nat /\
  ((exists i p, r.(players) !! i = Some p /\ p.(packed) = false) ->
     exists p, r.(players) !! (moveToNextActivePlayer r).(currentTurn) = Some p /\
               p.(packed) = false).
Proof.
  intros Hne. destruct (players r) as [|p0 ps0] eqn:Hps; [done|].
  rewrite (moveToNextActivePlayer_currentTurn r p0 ps0 Hps). cbv zeta.
  assert (Hs : ((currentTurn r + 1) mod length (p0 :: ps0) < length (p0 :: ps0))%nat)
    by (apply Nat.mod_upper_bound; simpl; lia).
  pose proof (scan_result (p0 :: ps0) _ p0 ps0 eq_refl Hs) as Hsr.
  destruct (skip_packed _ _ _ _) as [c b]. exact Hsr.
Qed.

Lemma ensureActiveTurn_range r :
  (r.(currentTurn) < length r.(players))%nat ->
  ((ensureActiveTurn r).(currentTurn) < length r.(players))%nat /\
  ((exists i p, r.(players) !! i = Some p /\ p.(packed) = false) ->
     exists p, r.(players) !! (ensureActiveTurn r).(currentTurn) = Some p /\
               p.(packed) = false).
Proof.
  intros Hct. unfold ensureActiveTurn. destruct (players r) as [|p0 ps0] eqn:Hps.
  - simpl in Hct. lia.
  - destruct (lookup_lt_is_Some_2 (p0 :: ps0) (currentTurn r) Hct) as [cp Hcp].
    rewrite Hcp. destruct (packed cp) eqn:Hpk.
    + pose proof (scan_result (p0 :: ps0) (currentTurn r) p0 ps0 eq_refl Hct) as Hsr.
      destruct (skip_packed _ _ _ _) as [c b]. exact Hsr.
    + split; [exact Hct|]. intros _. exists cp. done.
Qed.

Ltac shape_tac :=
  repeat match goal with
  | |- context [moveToNextActivePlayer ?x] =>
      let c := fresh "c" in destruct (moveToNextActivePlayer_shape x) as [c ->]
  | |- context [ensureActiveTurn ?x] =>
      let c := fresh "c" in destruct (ensureActiveTurn_shape x) as [c ->]
  end.

Lemma run_inv (P : room -> Prop) :
  (forall r o r' rep, P r -> step r o = (Some r', rep) -> P r') ->
  forall os r rf, P r -> (run (Some r) os).1 = Some rf -> P rf.
Proof.
  intros Hstep os. induction os as [|o os IH]; intros r rf Hr Hrun.
  - simpl in Hrun. congruence.
  - simpl in Hrun. destruct (step r o) as [[r'|] rep] eqn:Hs.
    + destruct (run (Some r') os) as [rf' tr] eqn:Hr'. simpl in Hrun.
      apply (IH r' rf (Hstep _ _ _ _ Hr Hs)). rewrite Hr'. exact Hrun.
    + destruct os; simpl in Hrun; discriminate.
Qed.

Lemma createRoom_room (rooms : registry) (cn : string) (sb : jsval) (n : Z) (pid sid : string) r0 :
  String.eqb (trim cn) "" = false ->
  (createRoom rooms (JString cn) sb n pid sid).1 !! generateRoomCode n = Some r0 ->
  r0 = addToGameLog (mkRoom (generateRoomCode n) cn (parseInt_or sb 1000)
         [mkPlayer pid sid cn (parseInt_or sb 1000) true false] 0 0 1 [] 0) (LCreated cn).
Proof.
  intros Hcn. unfold createRoom.
  assert (Hf : falsy (JString cn) = false).
  { simpl. destruct (String.eqb cn "") eqn:E; [|done].
    apply String.eqb_eq in E. subst cn. discriminate. }
  rewrite Hf, Hcn. simpl. rewrite lookup_insert_eq. congruence.
Qed.

Lemma ensureActiveTurn_players r : (ensureActiveTurn r).(players) = r.(players).
Proof. destruct (ensureActiveTurn_shape r) as [c ->]. reflexivity. Qed.

Lemma length_delete_lookup {A} (l : list A) i x :
  l !! i = Some x -> length (delete i l) = (length l - 1)%nat.
Proof. intros H. apply length_delete. eauto. Qed.

(** ** [room.players[room.currentTurn]] is always a player *)

Lemma joinRoom_turn r n i s r' rep :
  (r.(currentTurn) < length r.(players))%nat -> joinRoom r n i s = (r', rep) ->
  (r'.(currentTurn) < length r'.(players))%nat.
Proof.
  intros Hct. unfold joinRoom. repeat case_match; intros Hr; simplify_eq; try done.
  rewrite ensureActiveTurn_players. apply ensureActiveTurn_range.
  simpl. rewrite length_app. simpl. lia.
Qed.

Lemma rejoinRoom_turn r i n s r' rep :
  (r.(currentTurn) < length r.(players))%nat -> rejoinRoom r i n s = (r', rep) ->
  (r'.(currentTurn) < length r'.(players))%nat.
Proof.
  intros Hct. unfold rejoinRoom. repeat case_match; intros Hr; simplify_eq; try done.
  simpl. rewrite length_alter. exact Hct.
Qed.

Lemma placeBid_turn r i a r' rep :
  (r.(currentTurn) < length r.(players))%nat -> placeBid r i a = (r', rep) ->
  (r'.(currentTurn) < length r'.(players))%nat.
Proof.
  intros Hct. unfold placeBid. repeat case_match; intros Hr; simplify_eq; try done.
  rewrite moveToNextActivePlayer_players.
  apply moveToNextActivePlayer_range. simpl.
  intros Hn. apply (f_equal length) in Hn. rewrite length_alter in Hn. simpl in Hn. lia.
Qed.

Lemma autoWin_turn r j w :
  r.(players) <> [] ->
  ((autoWin r j w).(currentTurn) < length (autoWin r j w).(players))%nat.
Proof.
  intros Hne. unfold autoWin. simpl. rewrite length_map, length_alter.
  case_match.
  - match goal with E : findIndex _ _ = Some _ |- _ =>
      pose proof (findIndex_lt _ _ _ E) as Hl end.
    rewrite length_alter in Hl. exact Hl.
  - destruct (players r); [done|]. simpl. lia.
Qed.

Lemma packCards_turn r i r' rep :
  (r.(currentTurn) < length r.(players))%nat -> packCards r i = (r', rep) ->
  (r'.(currentTurn) < length r'.(players))%nat.
Proof.
  intros Hct. unfold packCards.
  destruct (findIndex (id_is i) (players r)) as [pi|]; [|intros H; simplify_eq; done].
  destruct (players r !! pi) as [player|] eqn:Hpl; [|intros H; simplify_eq; done].
  destruct (packed player); [intros H; simplify_eq; done|].
  destruct (negb _); [intros H; simplify_eq; done|].
  set (r3 := moveToNextActivePlayer _).
  assert (Hne : r3.(players) <> []).
  { subst r3. rewrite moveToNextActivePlayer_players. simpl.
    intros Hn. apply (f_equal length) in Hn. rewrite length_alter in Hn. simpl in Hn. lia. }
  assert (H3 : (r3.(currentTurn) < length r3.(players))%nat).
  { subst r3. rewrite moveToNextActivePlayer_players in Hne |- *.
    apply moveToNextActivePlayer_range. exact Hne. }
  clearbody r3.
  repeat case_match; intros Hr; simplify_eq; rewrite ensureActiveTurn_players;
    apply ensureActiveTurn_range; try exact H3.
  all: apply autoWin_turn; exact Hne.
Qed.

Lemma resetPool_turn r i r' rep :
  (r.(currentTurn) < length r.(players))%nat -> resetPool r i = (r', rep) ->
  (r'.(currentTurn) < length r'.(players))%nat.
Proof.
  intros Hct. unfold resetPool. repeat case_match; intros Hr; simplify_eq; try done.
  simpl. rewrite length_map. lia.
Qed.

Lemma declareWinner_turn r h w r' rep :
  (r.(currentTurn) < length r.(players))%nat -> declareWinner r h w = (r', rep) ->
  (r'.(currentTurn) < length r'.(players))%nat.
Proof.
  intros Hct. unfold declareWinner. repeat case_match; intros Hr; simplify_eq; try done.
  simpl in *. rewrite length_map, length_alter.
  match goal with E : findIndex _ (alter _ _ _) = Some _ |- _ =>
    pose proof (findIndex_lt _ _ _ E) as Hl end.
  rewrite length_alter in Hl. exact Hl.
  all: simpl in *; rewrite length_map, length_alter; destruct (players r); simpl in *; [done|lia].
Qed.

Lemma removePlayer_turn r h t r' rep :
  (r.(currentTurn) < length r.(players))%nat -> removePlayer r h t = (r', rep) ->
  (r'.(currentTurn) < length r'.(players))%nat.
Proof.
  intros Hct. unfold removePlayer.
  destruct (find (id_is h) (players r)) as [hp|] eqn:Eh; [|intros H; simplify_eq; done].
  destruct (isCreator hp) eqn:Ehc; simpl; [|intros H; simplify_eq; done].
  destruct (find (id_is t) (players r)) as [pt|] eqn:Et; [|intros H; simplify_eq; done].
  destruct (isCreator pt) eqn:Etc; [intros H; simplify_eq; done|].
  destruct (findIndex (id_is t) (players r)) as [ti|] eqn:Eti; [|intros H; simplify_eq; done].
  intros H. injection H as <- _.
  destruct (find_Some _ _ _ Eh) as (hi & _ & Hhi).
  assert (Hti : players r !! ti = Some pt) by (unfold find in Et; rewrite Eti in Et; exact Et).
  assert (Hdiff : hi <> ti) by (intros ->; congruence).
  assert (Hhl : (hi < length (players r))%nat) by (eapply lookup_lt_Some; eauto).
  assert (Htl : (ti < length (players r))%nat) by (eapply lookup_lt_Some; eauto).
  assert (Hlen : length (delete ti (players r)) = (length (players r) - 1)%nat)
    by (eapply length_delete_lookup; eauto).
  cbn [players currentTurn addToGameLog set_gameLog set_players].
  destruct (length (delete ti (players r)) <=? currentTurn r)%nat eqn:E1.
  - simpl. rewrite Hlen. lia.
  - apply Nat.leb_gt in E1. destruct (ti <? currentTurn r)%nat eqn:E2; simpl; lia.
Qed.

Lemma changeTurn_turn r h t r' rep :
  (r.(currentTurn) < length r.(players))%nat -> changeTurn r h t = (r', rep) ->
  (r'.(currentTurn) < length r'.(players))%nat.
Proof.
  intros Hct. unfold changeTurn. repeat case_match; intros Hr; simplify_eq; try done.
  simpl. eapply findIndex_lt. eauto.
Qed.

(** The end of [dropPlayer]: delete the room when empty, else clamp the turn. *)
Lemma clamp_turn (r3 r' : room) (p : player) rep :
  match r3.(players) with
  | [] => (None, Ok [])
  | _ => (Some (if (length r3.(players) <=? r3.(currentTurn))%nat
                then set_currentTurn r3 0 else r3), Ok [EvPlayerLeft p.(name)])
  end = (Some r', rep) ->
  r'.(players) = r3.(players) /\ (r'.(currentTurn) < length r'.(players))%nat /\
  exists r0, r' = set_currentTurn r3 r0.
Proof.
  destruct (length (players r3) <=? currentTurn r3)%nat eqn:Hle;
    destruct (players r3) as [|x l] eqn:E3; intros H; try discriminate;
    injection H as <- _.
  - split; [simpl; congruence|]. split; [simpl; rewrite E3; simpl; lia | eauto].
  - apply Nat.leb_gt in Hle. split; [done|]. split; [rewrite E3; exact Hle|].
    exists (currentTurn r3). rewrite set_currentTurn_self. done.
Qed.

Lemma dropPlayer_turn r i p m r' rep :
  dropPlayer r i p m = (Some r', rep) ->
  (r'.(currentTurn) < length r'.(players))%nat.
Proof. unfold dropPlayer. cbv zeta. intros H. apply clamp_turn in H. tauto. Qed.

Lemma step_turn r o r' rep :
  turn_valid r = true -> step r o = (Some r', rep) -> turn_valid r' = true.
Proof.
  unfold turn_valid. rewrite !Nat.ltb_lt. intros Hct Hs.
  destruct o; cbn [step] in Hs; unfold keep in Hs.
  - destruct (joinRoom r _ _ _) eqn:E; injection Hs as <- _; eapply joinRoom_turn; eauto.
  - destruct (rejoinRoom r _ _ _) eqn:E; injection Hs as <- _; eapply rejoinRoom_turn; eauto.
  - destruct (placeBid r _ _) eqn:E; injection Hs as <- _; eapply placeBid_turn; eauto.
  - destruct (packCards r _) eqn:E; injection Hs as <- _; eapply packCards_turn; eauto.
  - destruct (resetPool r _) eqn:E; injection Hs as <- _; eapply resetPool_turn; eauto.
  - destruct (declareWinner r _ _) eqn:E; injection Hs as <- _; eapply declareWinner_turn; eauto.
  - destruct (removePlayer r _ _) eqn:E; injection Hs as <- _; eapply removePlayer_turn; eauto.
  - destruct (changeTurn r _ _) eqn:E; injection Hs as <- _; eapply changeTurn_turn; eauto.
  - revert Hs. unfold leaveRoom. repeat case_match; intros Hs; simplify_eq; try done.
    eapply dropPlayer_turn; eauto.
  - revert Hs. unfold disconnectTimeout. repeat case_match; intros Hs; simplify_eq; try done.
    eapply dropPlayer_turn; eauto.
Qed.

(** ** What the handlers do to the list of players *)

Lemma map_alter_stable {A B} (g : A -> B) (f : A -> A) i l :
  (forall x, g (f x) = g x) -> map g (alter f i l) = map g l.
Proof.
  intros Hg. revert i. induction l as [|x l IH]; intros [|i]; simpl; auto.
  - rewrite Hg. done.
  - change (list_alter f i l) with (alter f i l). rewrite IH. done.
Qed.

Lemma map_map_stable {A B} (g : A -> B) (f : A -> A) l :
  (forall x, g (f x) = g x) -> map g (map f l) = map g l.
Proof. intros Hg. induction l as [|x l IH]; simpl; auto. rewrite Hg, IH. done. Qed.

Section Stable.
Context {B : Type} (g : player -> B).
Hypothesis Hsock : forall p s, g (set_socketId p s) = g p.
Hypothesis Hbal : forall p b, g (set_balance p b) = g p.
Hypothesis Hpack : forall p b, g (set_packed p b) = g p.

Lemma rejoinRoom_map r i n s r' rep :
  rejoinRoom r i n s = (r', rep) -> map g r'.(players) = map g r.(players).
Proof.
  unfold rejoinRoom. repeat case_match; intros Hr; simplify_eq; try done.
  simpl. apply map_alter_stable. done.
Qed.

Lemma placeBid_map r i a r' rep :
  placeBid r i a = (r', rep) -> map g r'.(players) = map g r.(players).
Proof.
  unfold placeBid. repeat case_match; intros Hr; simplify_eq; try done.
  rewrite moveToNextActivePlayer_players. simpl. apply map_alter_stable. done.
Qed.

Lemma autoWin_map r j w : map g (autoWin r j w).(players) = map g r.(players).
Proof.
  unfold autoWin. simpl. unfold unpack, credit.
  rewrite map_map_stable by done. apply map_alter_stable. done.
Qed.

Lemma packCards_map r i r' rep :
  packCards r i = (r', rep) -> map g r'.(players) = map g r.(players).
Proof.
  unfold packCards. repeat case_match; intros Hr; simplify_eq; try done;
    rewrite ensureActiveTurn_players; try rewrite autoWin_map;
    rewrite moveToNextActivePlayer_players; simpl; apply map_alter_stable; done.
Qed.

Lemma resetPool_map r i r' rep :
  resetPool r i = (r', rep) -> map g r'.(players) = map g r.(players).
Proof.
  unfold resetPool. repeat case_match; intros Hr; simplify_eq; try done.
  simpl. apply map_map_stable. intros x. rewrite Hpack, Hbal. done.
Qed.

Lemma declareWinner_map r h w r' rep :
  declareWinner r h w = (r', rep) -> map g r'.(players) = map g r.(players).
Proof.
  unfold declareWinner. repeat case_match; intros Hr; simplify_eq; try done;
    simpl; unfold unpack, credit; rewrite map_map_stable by done;
    apply map_alter_stable; done.
Qed.

Lemma changeTurn_map r h t r' rep :
  changeTurn r h t = (r', rep) -> map g r'.(players) = map g r.(players).
Proof. unfold changeTurn. repeat case_match; intros Hr; simplify_eq; done. Qed.

End Stable.

Lemma joinRoom_roster r n i s r' rep :
  joinRoom r n i s = (r', rep) ->
  r'.(players) = r.(players) \/
  (r'.(players) = (r.(players) ++ [mkPlayer i s n r.(startingBalance) false false])%list /\
   existsb (fun p => String.eqb (toLowerCase p.(name)) (toLowerCase n)) r.(players) = false).
Proof.
  unfold joinRoom. destruct (String.eqb (trim n) ""); [intros Hr; simplify_eq; auto|].
  destruct (existsb _ (players r)) eqn:Ex; intros Hr; simplify_eq; auto.
  right. rewrite ensureActiveTurn_players. split; [reflexivity|]. first [exact Ex | reflexivity].
Qed.

Lemma removePlayer_roster r h t r' rep :
  removePlayer r h t = (r', rep) ->
  r'.(players) = r.(players) \/
  exists ti pt hi hp, r.(players) !! ti = Some pt /\ pt.(isCreator) = false /\
    r.(players) !! hi = Some hp /\ hp.(isCreator) = true /\
    r'.(players) = delete ti r.(players).
Proof.
  unfold removePlayer.
  destruct (find (id_is h) (players r)) as [hp|] eqn:Eh; [|intros H; simplify_eq; auto].
  destruct (isCreator hp) eqn:Ehc; simpl; [|intros H; simplify_eq; auto].
  destruct (find (id_is t) (players r)) as [pt|] eqn:Et; [|intros H; simplify_eq; auto].
  destruct (isCreator pt) eqn:Etc; [intros H; simplify_eq; auto|].
  destruct (findIndex (id_is t) (players r)) as [ti|] eqn:Eti; [|intros H; simplify_eq; auto].
  intros H. injection H as <- _. right.
  destruct (find_Some _ _ _ Eh) as (hi & _ & Hhi).
  assert (Hti : players r !! ti = Some pt) by (unfold find in Et; rewrite Eti in Et; exact Et).
  exists ti, pt, hi, hp. do 4 (split; [done|]).
  repeat case_match; reflexivity.
Qed.

Lemma dropPlayer_roster r i p m r' rep :
  dropPlayer r i p m = (Some r', rep) ->
  r'.(players) = match delete i r.(players) with
                 | first :: rest => if p.(isCreator) then set_isCreator first true :: rest
                                    else first :: rest
                 | [] => []
                 end /\ r'.(players) <> [].
Proof.
  unfold dropPlayer. cbv zeta. intros H. apply clamp_turn in H as (H1 & H2 & _).
  split.
  - rewrite H1. simpl. destruct (delete i (players r)) as [|x l]; simpl; [done|].
    destruct (isCreator p); reflexivity.
  - intros Hn. rewrite Hn in H2. simpl in H2. lia.
Qed.

Lemma leaveRoom_roster r pid r' rep :
  leaveRoom r pid = (Some r', rep) ->
  r' = r \/ exists i p, r.(players) !! i = Some p /\ dropPlayer r i p (LLeft p.(name)) = (Some r', rep).
Proof.
  unfold leaveRoom. repeat case_match; intros Hr; simplify_eq; eauto.
Qed.

Lemma disconnectTimeout_roster r pid sid r' rep :
  disconnectTimeout r pid sid = (Some r', rep) ->
  r' = r \/ exists i p, r.(players) !! i = Some p /\
                        dropPlayer r i p (LLeftTimeout p.(name)) = (Some r', rep).
Proof.
  unfold disconnectTimeout. repeat case_match; intros Hr; simplify_eq; eauto.
Qed.

Lemma map_delete {A B} (g : A -> B) i l : map g (delete i l) = delete i (map g l).
Proof.
  revert i. induction l as [|x l IH]; intros [|i]; simpl; auto.
  change (list_delete i l) with (delete i l). change (list_delete i (map g l)) with (delete i (map g l)).
  rewrite IH. done.
Qed.

Lemma NoDup_delete_sub {A} (l : list A) i : NoDup l -> NoDup (delete i l).
Proof. intros H. eapply sublist_NoDup; [exact H | apply sublist_delete]. Qed.

(** The players list after [dropPlayer], seen through a field it keeps. *)
Lemma map_dropped {B} (g : player -> B) (l : list player) (c : bool) :
  (forall p b, g (set_isCreator p b) = g p) ->
  map g (match l with
         | first :: rest => if c then set_isCreator first true :: rest else first :: rest
         | [] => []
         end) = map g l.
Proof. intros Hg. destruct l as [|x l]; [done|]. destruct c; simpl; rewrite ?Hg; done. Qed.

(** ** Exactly one player is the creator *)

Lemma count_map_eq (l l' : list player) :
  map isCreator l' = map isCreator l ->
  length (List.filter isCreator l') = length (List.filter isCreator l).
Proof.
  revert l'. induction l as [|x l IH]; intros [|y l'] H; simpl in *; try done.
  injection H as Hxy Hl. rewrite Hxy. destruct (isCreator x); simpl; rewrite (IH l' Hl); done.
Qed.

Lemma count_app (l : list player) x :
  length (List.filter isCreator (l ++ [x])%list) =
  (length (List.filter isCreator l) + if isCreator x then 1 else 0)%nat.
Proof.
  induction l as [|y l IH]; simpl.
  - destruct (isCreator x); reflexivity.
  - destruct (isCreator y); simpl; rewrite IH; reflexivity.
Qed.

Lemma count_delete (l : list player) i x :
  l !! i = Some x ->
  (length (List.filter isCreator (delete i l)) + if isCreator x then 1 else 0)%nat =
  length (List.filter isCreator l).
Proof.
  revert i. induction l as [|y l IH]; intros [|i] H; simpl in H; try discriminate.
  - injection H as <-. simpl. destruct (isCreator y); simpl; lia.
  - simpl. change (list_delete i l) with (delete i l).
    specialize (IH i H). destruct (isCreator y); simpl; lia.
Qed.

Lemma dropPlayer_creators r i p m r' rep :
  length (List.filter isCreator r.(players)) = 1%nat ->
  r.(players) !! i = Some p ->
  dropPlayer r i p m = (Some r', rep) ->
  length (List.filter isCreator r'.(players)) = 1%nat.
Proof.
  intros Hc Hp Hd. destruct (dropPlayer_roster _ _ _ _ _ _ Hd) as [Hpl Hne].
  rewrite Hpl in Hne |- *. pose proof (count_delete _ _ _ Hp) as Hdel.
  destruct (delete i (players r)) as [|x l] eqn:Edel; [done|].
  destruct (isCreator p) eqn:Hpc.
  - rewrite Hc in Hdel. simpl in Hdel |- *.
    destruct (isCreator x); simpl in Hdel; [lia|]. lia.
  - rewrite Hc in Hdel. lia.
Qed.

Lemma step_creators r o r' rep :
  creator_count r = 1%nat -> step r o = (Some r', rep) -> creator_count r' = 1%nat.
Proof.
  unfold creator_count. intros Hc Hs.
  destruct o; cbn [step] in Hs; unfold keep in Hs.
  - destruct (joinRoom r _ _ _) eqn:E; injection Hs as <- _.
    destruct (joinRoom_roster _ _ _ _ _ _ E) as [-> | [-> _]]; [done|].
    rewrite count_app. simpl. lia.
  - destruct (rejoinRoom r _ _ _) eqn:E; injection Hs as <- _.
    rewrite <- Hc. apply count_map_eq. eapply rejoinRoom_map; eauto.
  - destruct (placeBid r _ _) eqn:E; injection Hs as <- _.
    rewrite <- Hc. apply count_map_eq. eapply placeBid_map; eauto.
  - destruct (packCards r _) eqn:E; injection Hs as <- _.
    rewrite <- Hc. apply count_map_eq. eapply packCards_map; eauto.
  - destruct (resetPool r _) eqn:E; injection Hs as <- _.
    rewrite <- Hc. apply count_map_eq. eapply resetPool_map; eauto.
  - destruct (declareWinner r _ _) eqn:E; injection Hs as <- _.
    rewrite <- Hc. apply count_map_eq. eapply declareWinner_map; eauto.
  - destruct (removePlayer r _ _) eqn:E; injection Hs as <- _.
    destruct (removePlayer_roster _ _ _ _ _ E) as [-> | (ti & pt & _ & _ & Hti & Htc & _ & _ & ->)];
      [done|].
    pose proof (count_delete _ _ _ Hti) as Hd. rewrite Htc in Hd. lia.
  - destruct (changeTurn r _ _) eqn:E; injection Hs as <- _.
    rewrite <- Hc. apply count_map_eq. eapply changeTurn_map; eauto.
  - destruct (leaveRoom_roster _ _ _ _ Hs) as [-> | (i & p & Hp & Hd)]; [done|].
    eapply dropPlayer_creators; eauto.
  - destruct (disconnectTimeout_roster _ _ _ _ _ Hs) as [-> | (i & p & Hp & Hd)]; [done|].
    eapply dropPlayer_creators; eauto.
Qed.

(** ** Player names stay distinct, ignoring case *)

Lemma step_names r o r' rep :
  NoDup (lower_names r) -> step r o = (Some r', rep) -> NoDup (lower_names r').
Proof.
  unfold lower_names. set (g := fun p : player => toLowerCase p.(name)). intros Hn Hs.
  assert (Hmap : forall r1 r2, map g r2.(players) = map g r1.(players) ->
                   NoDup (map g r1.(players)) -> NoDup (map g r2.(players)))
    by (intros r1 r2 E; rewrite E; done).
  destruct o; cbn [step] in Hs; unfold keep in Hs.
  - destruct (joinRoom r _ _ _) eqn:E; injection Hs as <- _.
    destruct (joinRoom_roster _ _ _ _ _ _ E) as [-> | [-> Hex]]; [done|].
    rewrite map_app. apply NoDup_app. split; [done|]. split; [|apply NoDup_singleton].
    intros x Hx Hx'. apply list_elem_of_singleton in Hx'. subst x.
    apply list_elem_of_In, in_map_iff in Hx as (q & Hq & Hin).
    assert (Hex' : existsb (fun p => String.eqb (toLowerCase p.(name)) (toLowerCase playerName)) (players r) = true).
    { apply existsb_exists. exists q. split; [exact Hin|]. apply String.eqb_eq. exact Hq. }
    congruence.
  - destruct (rejoinRoom r _ _ _) eqn:E; injection Hs as <- _.
    eapply Hmap; [eapply rejoinRoom_map; eauto | done].
  - destruct (placeBid r _ _) eqn:E; injection Hs as <- _.
    eapply Hmap; [eapply placeBid_map; eauto | done].
  - destruct (packCards r _) eqn:E; injection Hs as <- _.
    eapply Hmap; [eapply packCards_map; eauto | done].
  - destruct (resetPool r _) eqn:E; injection Hs as <- _.
    eapply Hmap; [eapply resetPool_map; eauto | done].
  - destruct (declareWinner r _ _) eqn:E; injection Hs as <- _.
    eapply Hmap; [eapply declareWinner_map; eauto | done].
  - destruct (removePlayer r _ _) eqn:E; injection Hs as <- _.
    destruct (removePlayer_roster _ _ _ _ _ E) as [-> | (ti & _ & _ & _ & _ & _ & _ & _ & ->)];
      [done|].
    rewrite map_delete. apply NoDup_delete_sub. done.
  - destruct (changeTurn r _ _) eqn:E; injection Hs as <- _.
    eapply Hmap; [eapply changeTurn_map; eauto | done].
  - destruct (leaveRoom_roster _ _ _ _ Hs) as [-> | (i & p & Hp & Hd)]; [done|].
    destruct (dropPlayer_roster _ _ _ _ _ _ Hd) as [-> _].
    rewrite map_dropped by reflexivity. rewrite map_delete. apply NoDup_delete_sub. done.
  - destruct (disconnectTimeout_roster _ _ _ _ _ Hs) as [-> | (i & p & Hp & Hd)]; [done|].
    destruct (dropPlayer_roster _ _ _ _ _ _ Hd) as [-> _].
    rewrite map_dropped by reflexivity. rewrite map_delete. apply NoDup_delete_sub. done.
Qed.

(** ** Pool, bid count and round; the game log *)

Ltac handler_cases H :=
  revert H;
  unfold joinRoom, rejoinRoom, placeBid, packCards, resetPool, declareWinner,
    removePlayer, changeTurn, leaveRoom, disconnectTimeout, dropPlayer, autoWin;
  repeat case_match; intros H; simplify_eq; shape_tac; simpl in *.

Lemma step_cases r o r' rep :
  step r o = (Some r', rep) ->
  match o with
  | OJoin n i s => joinRoom r n i s = (r', rep)
  | ORejoin i n s => rejoinRoom r i n s = (r', rep)
  | OBid i a => placeBid r i a = (r', rep)
  | OPack i => packCards r i = (r', rep)
  | OReset i => resetPool r i = (r', rep)
  | ODeclare i w => declareWinner r i w = (r', rep)
  | ORemove i t => removePlayer r i t = (r', rep)
  | OChangeTurn i t => changeTurn r i t = (r', rep)
  | OLeave i => leaveRoom r i = (Some r', rep)
  | OTimeout i s => disconnectTimeout r i s = (Some r', rep)
  end.
Proof.
  destruct o; cbn [step]; unfold keep; try done;
    match goal with |- (Some (?x).1, _) = _ -> _ => destruct x end;
    intros H; injection H as <- <-; done.
Qed.

Lemma step_sync r o r' rep :
  pool_in_sync r = true -> step r o = (Some r', rep) -> pool_in_sync r' = true.
Proof.
  unfold pool_in_sync. intros Hs Hst. apply step_cases in Hst.
  repeat rewrite andb_true_iff in Hs. destruct Hs as [[[H1 H2] H3] H4].
  apply Z.leb_le in H1, H2, H4.
  destruct o; handler_cases Hst.
  all: repeat match goal with
       | H : (_ <=? _)%Z = false |- _ => apply Z.leb_gt in H
       | H : (_ <=? _)%Z = true |- _ => apply Z.leb_le in H
       end.
  all: repeat rewrite andb_true_iff; rewrite ?Z.leb_le.
  all: repeat split; try lia; try assumption; try reflexivity.
  all: match goal with |- Bool.eqb (?a =? 0)%Z (?b =? 0)%Z = true =>
         destruct (Z.eqb_spec a 0), (Z.eqb_spec b 0); try lia; reflexivity end.
Qed.

Lemma addToGameLog_length r m :
  length (addToGameLog r m).(gameLog) = Nat.min (length r.(gameLog) + 1) 50.
Proof.
  unfold addToGameLog. cbn [gameLog set_gameLog]. case_match.
  - match goal with E : (_ <? _)%nat = true |- _ => apply Nat.ltb_lt in E end.
    rewrite length_drop. rewrite length_app in *. simpl in *. lia.
  - match goal with E : (_ <? _)%nat = false |- _ => apply Nat.ltb_ge in E end.
    rewrite length_app in *. simpl in *. lia.
Qed.

Lemma log_trim_bound {A} (l : list A) :
  (length (if (50 <? length l)%nat then drop (length l - 50) l else l) <=? 50)%nat = true.
Proof.
  apply Nat.leb_le. destruct (50 <? length l)%nat eqn:E.
  - rewrite length_drop. lia.
  - apply Nat.ltb_ge in E. exact E.
Qed.

Lemma step_log r o r' rep :
  log_bounded r = true -> step r o = (Some r', rep) -> log_bounded r' = true.
Proof.
  unfold log_bounded. intros Hs Hst. apply step_cases in Hst.
  destruct o; handler_cases Hst; first [assumption | apply log_trim_bound].
Qed.

(** ** Money: balances and pool *)

Lemma sum_alter (f : player -> player) i l x :
  l !! i = Some x ->
  sum_balances (alter f i l) = (sum_balances l - x.(balance) + (f x).(balance))%Z.
Proof.
  revert i. induction l as [|y l IH]; intros [|i] H; simpl in H; try discriminate.
  - injection H as <-. simpl. lia.
  - simpl. change (list_alter f i l) with (alter f i l). rewrite (IH i H). lia.
Qed.

Lemma sum_alter_stable (f : player -> player) i l :
  (forall p, (f p).(balance) = p.(balance)) -> sum_balances (alter f i l) = sum_balances l.
Proof.
  intros Hf. revert i. induction l as [|y l IH]; intros [|i]; simpl; auto.
  - rewrite Hf. done.
  - change (list_alter f i l) with (alter f i l). rewrite IH. done.
Qed.

Lemma sum_map_stable (f : player -> player) l :
  (forall p, (f p).(balance) = p.(balance)) -> sum_balances (map f l) = sum_balances l.
Proof. intros Hf. induction l as [|y l IH]; simpl; auto. rewrite Hf, IH. done. Qed.

Lemma sum_app l x : sum_balances (l ++ [x])%list = (sum_balances l + x.(balance))%Z.
Proof. induction l as [|y l IH]; simpl; lia. Qed.

Lemma sum_delete l i x :
  l !! i = Some x -> sum_balances (delete i l) = (sum_balances l - x.(balance))%Z.
Proof.
  revert i. induction l as [|y l IH]; intros [|i] H; simpl in H; try discriminate.
  - injection H as <-. simpl. lia.
  - simpl. change (list_delete i l) with (delete i l). rewrite (IH i H). lia.
Qed.

Lemma sum_reset l (sb : Z) :
  sum_balances (map (fun p => set_packed (set_balance p sb) false) l) =
  (Z.of_nat (length l) * sb)%Z.
Proof. induction l as [|y l IH]; simpl; lia. Qed.

Lemma sum_dropped (l : list player) (c : bool) :
  sum_balances (match l with
                | first :: rest => if c then set_isCreator first true :: rest else first :: rest
                | [] => []
                end) = sum_balances l.
Proof. destruct l as [|x l]; [done|]. destruct c; reflexivity. Qed.

Ltac money_tac :=
  rewrite ?moveToNextActivePlayer_players, ?ensureActiveTurn_players in *; simpl in *;
  rewrite ?sum_map_stable by (intros; reflexivity);
  repeat match goal with
  | H : ?l !! ?j = Some ?x |- context [sum_balances (alter ?f ?j ?l)] =>
      rewrite (sum_alter f j l x H)
  end;
  rewrite ?sum_alter_stable by (intros; reflexivity);
  unfold credit; simpl; lia.

Lemma dropPlayer_money r i p m r' rep :
  r.(players) !! i = Some p -> dropPlayer r i p m = (Some r', rep) ->
  total_money r' = (total_money r - p.(balance))%Z.
Proof.
  intros Hp Hd. unfold total_money.
  rewrite (Pool.dropPlayer_pool _ _ _ _ _ _ Hd).
  destruct (dropPlayer_roster _ _ _ _ _ _ Hd) as [-> _].
  rewrite sum_dropped, (sum_delete _ _ _ Hp). lia.
Qed.

(** ** Non-negative amounts *)

Lemma forallb_alter_at (f : player -> bool) (g : player -> player) i l x :
  l !! i = Some x -> f (g x) = true -> forallb f l = true -> forallb f (alter g i l) = true.
Proof.
  revert i. induction l as [|y l IH]; intros [|i] H Hg Hl; simpl in *; try discriminate.
  - injection H as <-. apply andb_true_iff in Hl as [_ Hl]. rewrite Hg, Hl. done.
  - apply andb_true_iff in Hl as [Hy Hl]. change (list_alter g i l) with (alter g i l).
    rewrite Hy, (IH i H Hg Hl). done.
Qed.

Lemma forallb_alter_mono (f : player -> bool) (g : player -> player) i l :
  (forall x, f x = true -> f (g x) = true) -> forallb f l = true -> forallb f (alter g i l) = true.
Proof.
  intros Hg. revert i. induction l as [|y l IH]; intros [|i] Hl; simpl in *; auto;
    apply andb_true_iff in Hl as [Hy Hl].
  - rewrite (Hg y Hy), Hl. done.
  - change (list_alter g i l) with (alter g i l). rewrite Hy, (IH i Hl). done.
Qed.

Lemma forallb_map_mono (f : player -> bool) (g : player -> player) l :
  (forall x, f x = true -> f (g x) = true) -> forallb f l = true -> forallb f (map g l) = true.
Proof.
  intros Hg. induction l as [|y l IH]; simpl; auto. intros Hl.
  apply andb_true_iff in Hl as [Hy Hl]. rewrite (Hg y Hy), (IH Hl). done.
Qed.

Lemma forallb_delete (f : player -> bool) i l :
  forallb f l = true -> forallb f (delete i l) = true.
Proof.
  revert i. induction l as [|y l IH]; intros [|i] Hl; simpl in *; auto;
    apply andb_true_iff in Hl as [Hy Hl]; [done|].
  change (list_delete i l) with (delete i l). rewrite Hy, (IH i Hl). done.
Qed.

Lemma forallb_snoc (f : player -> bool) l x :
  forallb f l = true -> f x = true -> forallb f (l ++ [x])%list = true.
Proof. intros Hl Hx. rewrite forallb_app, Hl. simpl. rewrite Hx. done. Qed.

Ltac znorm :=
  repeat match goal with
  | H : (_ <=? _)%Z = false |- _ => apply Z.leb_gt in H
  | H : (_ <=? _)%Z = true |- _ => apply Z.leb_le in H
  | H : (_ <? _)%Z = false |- _ => apply Z.ltb_ge in H
  | H : (_ <? _)%Z = true |- _ => apply Z.ltb_lt in H
  | H : _ && _ = true |- _ => apply andb_true_iff in H as [? ?]
  end.

Ltac zgoal := simpl in *; znorm; apply Z.leb_le; lia.

Ltac forallb_tac :=
  repeat first
   [ assumption
   | apply forallb_map_mono; [intros ?x ?Hx; zgoal|]
   | match goal with
     | H : ?l !! ?j = Some ?x |- forallb _ (alter ?g ?j ?l) = true =>
         apply (forallb_alter_at _ g j l x H); [zgoal|]
     end
   | apply forallb_alter_mono; [intros ?x ?Hx; zgoal|]
   | apply forallb_delete
   | apply forallb_snoc; [|zgoal] ].

Ltac nonneg_tac :=
  unfold nonneg in *;
  rewrite ?moveToNextActivePlayer_players, ?ensureActiveTurn_players in *; simpl in *;
  znorm;
  repeat (apply andb_true_intro; split);
  first [apply Z.leb_le; lia | forallb_tac].

Lemma dropPlayer_nonneg r i p m r' rep :
  nonneg r = true -> dropPlayer r i p m = (Some r', rep) -> nonneg r' = true.
Proof.
  intros Hn Hd. pose proof (Pool.dropPlayer_pool _ _ _ _ _ _ Hd) as Hpool.
  destruct (dropPlayer_roster _ _ _ _ _ _ Hd) as [Hp _].
  assert (Hsb : r'.(startingBalance) = r.(startingBalance))
    by (revert Hd; unfold dropPlayer; repeat case_match; intros Hr; simplify_eq; done).
  unfold nonneg in *. rewrite Hpool, Hsb, Hp. znorm.
  repeat (apply andb_true_intro; split); try (apply Z.leb_le; lia).
  assert (Hdel : forallb (fun q => (0 <=? q.(balance))%Z) (delete i r.(players)) = true)
    by (apply forallb_delete; assumption).
  destruct (delete i r.(players)) as [|x l]; [done|].
  destruct (isCreator p); exact Hdel.
Qed.

Lemma step_nonneg r o r' rep :
  nonneg r = true -> step r o = (Some r', rep) -> nonneg r' = true.
Proof.
  intros Hn Hst. apply step_cases in Hst. destruct o.
  1-8: handler_cases Hst; nonneg_tac.
  - destruct (leaveRoom_roster _ _ _ _ Hst) as [-> | (i & p & _ & Hd)]; [done|].
    eapply dropPlayer_nonneg; eauto.
  - destruct (disconnectTimeout_roster _ _ _ _ _ Hst) as [-> | (i & p & _ & Hd)]; [done|].
    eapply dropPlayer_nonneg; eauto.
Qed.

(** ** Fixed fields, uncaught errors, access control *)

(** ** Turn discipline *)

Lemma forallb_packed_false l :
  forallb packed l = false -> exists i p, l !! i = Some p /\ p.(packed) = false.
Proof.
  induction l as [|x l IH]; simpl; [done|]. intros H.
  destruct (packed x) eqn:Hx.
  - destruct (IH H) as (i & p & Hp & Hq). exists (S i), p. done.
  - exists 0%nat, x. done.
Qed.

Lemma turn_on_unpacked_intro r :
  ((exists i p, r.(players) !! i = Some p /\ p.(packed) = false) ->
   exists p, r.(players) !! r.(currentTurn) = Some p /\ p.(packed) = false) ->
  turn_on_unpacked r = true.
Proof.
  unfold turn_on_unpacked, packed_at. intros H.
  destruct (forallb packed (players r)) eqn:E; [done|].
  destruct (H (forallb_packed_false _ E)) as (p & -> & ->). done.
Qed.

Lemma packed_at_map_false (f : player -> player) l i :
  (forall p, (f p).(packed) = false) -> packed_at (map f l) i = false.
Proof.
  intros Hf. unfold packed_at. revert i. induction l as [|x l IH]; intros [|i]; simpl; auto.
Qed.

(** ** Reconnection, leaving, the registry *)

Lemma delete_nil_singleton {A} (l : list A) i x :
  l !! i = Some x -> delete i l = [] -> l = [x].
Proof.
  intros Hx Hd. pose proof (length_delete_lookup l i x Hx) as Hl. rewrite Hd in Hl.
  simpl in Hl. pose proof (lookup_lt_Some _ _ _ Hx) as Hi.
  destruct l as [|y [|z l]]; simpl in *; try lia.
  destruct i as [|i]; [simpl in Hx; congruence|]. simpl in Hx. rewrite lookup_nil in Hx. done.
Qed.

Lemma dropPlayer_None r i p m rep :
  dropPlayer r i p m = (None, rep) -> delete i r.(players) = [].
Proof.
  unfold dropPlayer. simpl. destruct (delete i (players r)) as [|x l]; [done|].
  destruct (isCreator p); simpl; intros H; discriminate.
Qed.

Lemma dropPlayer_last r p m :
  r.(players) = [p] -> (dropPlayer r 0 p m).1 = None.
Proof. intros Hp. unfold dropPlayer. simpl. rewrite Hp. done. Qed.

Lemma id_is_self p : id_is p.(id) p = true.
Proof. unfold id_is. apply String.eqb_refl. Qed.

Lemma only_at_insert (rooms : Registry.registry) c r r0 :
  rooms !! c = Some r0 -> only_at rooms (<[c := r]> rooms) (JString c).
Proof.
  intros Hc. split.
  - intros c'. rewrite lookup_insert_is_Some'. split; [|auto].
    intros [<- | H]; [eauto | exact H].
  - intros c' Hne. apply lookup_insert_ne. congruence.
Qed.

Lemma only_at_refl (rooms : Registry.registry) rc : only_at rooms rooms rc.
Proof. split; done. Qed.

Lemma trim_empty_nonempty s : String.eqb (trim s) "" = false -> String.eqb s "" = false.
Proof. intros H. destruct s; [discriminate|reflexivity]. Qed.

(** ** Rooms reachable from [createRoom] *)

Lemma forallb_delete_any {A} (f : A -> bool) i l :
  forallb f l = true -> forallb f (delete i l) = true.
Proof.
  revert i. induction l as [|y l IH]; intros [|i] Hl; simpl in *; auto;
    apply andb_true_iff in Hl as [Hy Hl]; [done|].
  change (list_delete i l) with (delete i l). rewrite Hy, (IH i Hl). done.
Qed.

Lemma step_ascii_names r o r' rep :
  ascii_names r = true -> ascii_op o = true -> step r o = (Some r', rep) ->
  ascii_names r' = true.
Proof.
  unfold ascii_names. intros Hn Ho Hs.
  assert (Hmap : forall r1 r2, map name r2.(players) = map name r1.(players) ->
                   forallb is_ascii (map name r1.(players)) = true ->
                   forallb is_ascii (map name r2.(players)) = true)
    by (intros r1 r2 E; rewrite E; done).
  destruct o; cbn [step] in Hs; unfold keep in Hs.
  - destruct (joinRoom r _ _ _) eqn:E; injection Hs as <- _.
    destruct (joinRoom_roster _ _ _ _ _ _ E) as [-> | [-> _]]; [done|].
    rewrite map_app, forallb_app, Hn. simpl in Ho |- *. rewrite Ho. done.
  - destruct (rejoinRoom r _ _ _) eqn:E; injection Hs as <- _.
    eapply Hmap; [eapply rejoinRoom_map; eauto | done].
  - destruct (placeBid r _ _) eqn:E; injection Hs as <- _.
    eapply Hmap; [eapply placeBid_map; eauto | done].
  - destruct (packCards r _) eqn:E; injection Hs as <- _.
    eapply Hmap; [eapply packCards_map; eauto | done].
  - destruct (resetPool r _) eqn:E; injection Hs as <- _.
    eapply Hmap; [eapply resetPool_map; eauto | done].
  - destruct (declareWinner r _ _) eqn:E; injection Hs as <- _.
    eapply Hmap; [eapply declareWinner_map; eauto | done].
  - destruct (removePlayer r _ _) eqn:E; injection Hs as <- _.
    destruct (removePlayer_roster _ _ _ _ _ E) as [-> | (ti & _ & _ & _ & _ & _ & _ & _ & ->)];
      [done|].
    rewrite map_delete. apply forallb_delete_any. done.
  - destruct (changeTurn r _ _) eqn:E; injection Hs as <- _.
    eapply Hmap; [eapply changeTurn_map; eauto | done].
  - destruct (leaveRoom_roster _ _ _ _ Hs) as [-> | (i & p & Hp & Hd)]; [done|].
    destruct (dropPlayer_roster _ _ _ _ _ _ Hd) as [-> _].
    rewrite map_dropped by reflexivity. rewrite map_delete. apply forallb_delete_any. done.
  - destruct (disconnectTimeout_roster _ _ _ _ _ Hs) as [-> | (i & p & Hp & Hd)]; [done|].
    destruct (dropPlayer_roster _ _ _ _ _ _ Hd) as [-> _].
    rewrite map_dropped by reflexivity. rewrite map_delete. apply forallb_delete_any. done.
Qed.

Lemma run_inv_ops (P : room -> Prop) (Q : op -> bool) :
  (forall r o r' rep, P r -> Q o = true -> step r o = (Some r', rep) -> P r') ->
  forall os r rf, forallb Q os = true -> P r -> (run (Some r) os).1 = Some rf -> P rf.
Proof.
  intros Hstep os. induction os as [|o os IH]; intros r rf Hq Hr Hrun.
  - simpl in Hrun. congruence.
  - simpl in Hq. apply andb_true_iff in Hq as [Ho Hq].
    simpl in Hrun. destruct (step r o) as [[r'|] rep] eqn:Hs.
    + destruct (run (Some r') os) as [rf' tr] eqn:Hr'. simpl in Hrun.
      apply (IH r' rf Hq (Hstep _ _ _ _ Hr Ho Hs)). rewrite Hr'. exact Hrun.
    + destruct os; simpl in Hrun; discriminate.
Qed.

Lemma reachable_inv (P : room -> Prop) (rooms : registry) cn sb n pid sid r0 os rf :
  (forall r o r' rep, P r -> step r o = (Some r', rep) -> P r') ->
  P (addToGameLog (mkRoom (generateRoomCode n) cn (parseInt_or sb 1000)
       [mkPlayer pid sid cn (parseInt_or sb 1000) true false] 0 0 1 [] 0) (LCreated cn)) ->
  String.eqb (trim cn) "" = false ->
  (createRoom rooms (JString cn) sb n pid sid).1 !! generateRoomCode n = Some r0 ->
  (run (Some r0) os).1 = Some rf -> P rf.
Proof.
  intros Hs Hi Hcn Hr0 Hrun. eapply (run_inv P Hs os r0 rf); [|exact Hrun].
  rewrite (createRoom_room rooms cn sb n pid sid r0 Hcn Hr0). exact Hi.
Qed.

End Inv.


(* ------------------------------------------------------------------ *)
(** ** Further properties of the handlers *)

Module Extras.
Import Room Handlers Registry Turn Settle Measures Inv.

(** Every room reachable from [createRoom] (non-blank creator name) by any
    sequence of requests has [currentTurn] inside [players]. *)
Theorem reachable_turn_in_range (rooms : registry) cn sb n pid sid r0 os rf :
  String.eqb (trim cn) "" = false ->
  (createRoom rooms (JString cn) sb n pid sid).1 !! generateRoomCode n = Some r0 ->
  (run (Some r0) os).1 = Some rf ->
  (rf.(currentTurn) < length rf.(players))%nat.
Proof.
  intros Hcn Hr0 Hrun. apply Nat.ltb_lt.
  apply (reachable_inv (fun r => turn_valid r = true) rooms cn sb n pid sid r0 os rf);
    [exact step_turn | reflexivity | exact Hcn | exact Hr0 | exact Hrun].
Qed.

(** Every room reachable from [createRoom] has exactly one player flagged
    [isCreator]. *)
Theorem reachable_one_creator (rooms : registry) cn sb n pid sid r0 os rf :
  String.eqb (trim cn) "" = false ->
  (createRoom rooms (JString cn) sb n pid sid).1 !! generateRoomCode n = Some r0 ->
  (run (Some r0) os).1 = Some rf ->
  length (List.filter isCreator rf.(players)) = 1%nat.
Proof.
  intros Hcn Hr0 Hrun.
  apply (reachable_inv (fun r => creator_count r = 1%nat) rooms cn sb n pid sid r0 os rf);
    [exact step_creators | reflexivity | exact Hcn | exact Hr0 | exact Hrun].
Qed.

(** When the creator's name and the names of all joining players are
    ASCII strings, every room reachable from [createRoom] has only ASCII
    names, and no two of them are equal up to [toLowerCase]. *)
Theorem reachable_names_distinct (rooms : registry) cn sb n pid sid r0 os rf :
  is_ascii cn = true ->
  forallb ascii_op os = true ->
  String.eqb (trim cn) "" = false ->
  (createRoom rooms (JString cn) sb n pid sid).1 !! generateRoomCode n = Some r0 ->
  (run (Some r0) os).1 = Some rf ->
  (forall p, In p rf.(players) -> is_ascii p.(name) = true) /\
  NoDup (map (fun p => toLowerCase p.(name)) rf.(players)).
Proof.
  intros Ha Hos Hcn Hr0 Hrun.
  assert (H : NoDup (lower_names rf) /\ ascii_names rf = true).
  { apply (run_inv_ops (fun r => NoDup (lower_names r) /\ ascii_names r = true) ascii_op)
      with (os := os) (r := r0); [| exact Hos | | exact Hrun].
    - intros r o r' rep [H1 H2] Ho Hs.
      split; [exact (step_names _ _ _ _ H1 Hs) | exact (step_ascii_names _ _ _ _ H2 Ho Hs)].
    - rewrite (createRoom_room rooms cn sb n pid sid r0 Hcn Hr0).
      split; [apply NoDup_singleton|]. unfold ascii_names. simpl. rewrite Ha. done. }
  destruct H as [H1 H2]. split; [|exact H1].
  intros p Hp. unfold ascii_names in H2. rewrite forallb_forall in H2.
  apply H2, in_map_iff. eauto.
Qed.

(** In every room reachable from [createRoom], the pool and [totalBids] are
    non-negative, the pool is 0 exactly when [totalBids] is 0, and the round
    is at least 1. *)
Theorem reachable_pool_in_sync (rooms : registry) cn sb n pid sid r0 os rf :
  String.eqb (trim cn) "" = false ->
  (createRoom rooms (JString cn) sb n pid sid).1 !! generateRoomCode n = Some r0 ->
  (run (Some r0) os).1 = Some rf ->
  (0 <= rf.(pool))%Z /\ (0 <= rf.(totalBids))%Z /\
  (rf.(pool) = 0%Z <-> rf.(totalBids) = 0%Z) /\ (1 <= rf.(round))%Z.
Proof.
  intros Hcn Hr0 Hrun.
  assert (H : pool_in_sync rf = true).
  { apply (reachable_inv (fun r => pool_in_sync r = true) rooms cn sb n pid sid r0 os rf);
      [exact step_sync | reflexivity | exact Hcn | exact Hr0 | exact Hrun]. }
  unfold pool_in_sync in H. repeat rewrite andb_true_iff in H.
  destruct H as [[[H1 H2] H3] H4]. apply Z.leb_le in H1, H2, H4.
  split; [done|]. split; [done|]. split; [|done].
  destruct (Z.eqb_spec (pool rf) 0), (Z.eqb_spec (totalBids rf) 0); simpl in H3;
    try discriminate; split; intros; try done; lia.
Qed.

(** Every room reachable from [createRoom] keeps at most 50 game-log
    entries. *)
Theorem reachable_log_bounded (rooms : registry) cn sb n pid sid r0 os rf :
  String.eqb (trim cn) "" = false ->
  (createRoom rooms (JString cn) sb n pid sid).1 !! generateRoomCode n = Some r0 ->
  (run (Some r0) os).1 = Some rf ->
  (length rf.(gameLog) <= 50)%nat.
Proof.
  intros Hcn Hr0 Hrun. apply Nat.leb_le.
  apply (reachable_inv (fun r => log_bounded r = true) rooms cn sb n pid sid r0 os rf);
    [exact step_log | reflexivity | exact Hcn | exact Hr0 | exact Hrun].
Qed.

(** When the starting balance [parseInt(startingBalance) || 1000] is not
    negative, every room reachable from [createRoom] has a non-negative
    pool and only non-negative balances. *)
Theorem reachable_nonneg (rooms : registry) cn sb n pid sid r0 os rf :
  (0 <= parseInt_or sb 1000)%Z ->
  String.eqb (trim cn) "" = false ->
  (createRoom rooms (JString cn) sb n pid sid).1 !! generateRoomCode n = Some r0 ->
  (run (Some r0) os).1 = Some rf ->
  (0 <= rf.(pool))%Z /\ forall p, In p rf.(players) -> (0 <= p.(balance))%Z.
Proof.
  intros Hsb Hcn Hr0 Hrun.
  assert (H : nonneg rf = true).
  { apply (reachable_inv (fun r => nonneg r = true) rooms cn sb n pid sid r0 os rf);
      [exact step_nonneg | | exact Hcn | exact Hr0 | exact Hrun].
    unfold nonneg. simpl. apply Z.leb_le in Hsb. rewrite Hsb. done. }
  unfold nonneg in H. repeat rewrite andb_true_iff in H. destruct H as [[_ H1] H2].
  apply Z.leb_le in H1. split; [done|]. intros p Hp.
  rewrite forallb_forall in H2. apply Z.leb_le. exact (H2 p Hp).
Qed.

(** A successful request moves money (the balances plus the pool) only
    this way: a join adds the starting balance or nothing; a reset leaves it
    or makes it the number of players times the starting balance; a
    removal, a leave or a timeout leaves it or takes away the balance of
    one player of the room; every other request leaves it unchanged. *)
Theorem step_money_ledger r o r' rep :
  step r o = (Some r', rep) ->
  match o with
  | OJoin _ _ _ => total_money r' = total_money r \/
                   total_money r' = (total_money r + r.(startingBalance))%Z
  | OReset _ => total_money r' = total_money r \/
                total_money r' = (Z.of_nat (length r.(players)) * r.(startingBalance))%Z
  | ORemove _ _ | OLeave _ | OTimeout _ _ =>
      total_money r' = total_money r \/
      exists i p, r.(players) !! i = Some p /\
                  total_money r' = (total_money r - p.(balance))%Z
  | _ => total_money r' = total_money r
  end.
Proof.
  intros Hst. apply step_cases in Hst. destruct o.
  - destruct (joinRoom_roster _ _ _ _ _ _ Hst) as [Hp | [Hp _]];
      (assert (Hpool : r'.(pool) = r.(pool))
         by (revert Hst; unfold joinRoom; repeat case_match; intros Hr; simplify_eq;
             rewrite ?Pool.pool_ensureActiveTurn; done));
      unfold total_money; rewrite Hp, Hpool; [left; done|right].
    rewrite sum_app. simpl. lia.
  - unfold total_money. handler_cases Hst; money_tac.
  - unfold total_money. handler_cases Hst; money_tac.
  - unfold total_money. handler_cases Hst; money_tac.
  - unfold total_money. handler_cases Hst; try (left; money_tac).
    right. rewrite sum_reset. simpl. lia.
  - unfold total_money. handler_cases Hst; money_tac.
  - destruct (removePlayer_roster _ _ _ _ _ Hst) as [Hp | (ti & pt & _ & _ & Hti & _ & _ & _ & Hp)];
      (assert (Hpool : r'.(pool) = r.(pool))
         by (revert Hst; unfold removePlayer; repeat case_match; intros Hr; simplify_eq; done));
      unfold total_money; rewrite Hp, Hpool; [left; done|right].
    exists ti, pt. split; [done|]. rewrite (sum_delete _ _ _ Hti). lia.
  - unfold total_money. handler_cases Hst; money_tac.
  - destruct (leaveRoom_roster _ _ _ _ Hst) as [-> | (i & p & Hp & Hd)]; [left; done|].
    right. exists i, p. split; [done|]. eapply dropPlayer_money; eauto.
  - destruct (disconnectTimeout_roster _ _ _ _ _ Hst) as [-> | (i & p & Hp & Hd)]; [left; done|].
    right. exists i, p. split; [done|]. eapply dropPlayer_money; eauto.
Qed.

(** No request changes the room's [code] or its [startingBalance]. *)
Theorem step_keeps_code_and_startingBalance r o r' rep :
  step r o = (Some r', rep) ->
  r'.(code) = r.(code) /\ r'.(startingBalance) = r.(startingBalance).
Proof.
  intros Hst. apply step_cases in Hst. destruct o.
  1-8: handler_cases Hst; rewrite ?moveToNextActivePlayer_players in *; split; reflexivity.
  - destruct (leaveRoom_roster _ _ _ _ Hst) as [-> | (i & p & _ & Hd)]; [done|].
    revert Hd; unfold dropPlayer; repeat case_match; intros Hd; simplify_eq; done.
  - destruct (disconnectTimeout_roster _ _ _ _ _ Hst) as [-> | (i & p & _ & Hd)]; [done|].
    revert Hd; unfold dropPlayer; repeat case_match; intros Hd; simplify_eq; done.
Qed.

(** A [createRoom] or [joinRoom] request ends in an uncaught [TypeError]
    exactly when its name field is truthy and not a string
    ([name.trim] is not a function); [rejoinRoom] never does; and on a room
    whose [currentTurn] is inside [players] no room-level request does: the
    read of [room.players[room.currentTurn].id] in [placeBid] always finds
    a player. *)
Theorem valid_turn_never_uncaught (rooms : registry) r o cn sb n pid sid pn rc nid sid2
    rrc rpid rpn sid3 :
  (turn_valid r = true -> (step r o).2 <> Err EUncaught) /\
  ((createRoom rooms cn sb n pid sid).2 = Err EUncaught <->
     falsy cn = false /\ forall s, cn <> JString s) /\
  ((joinRoomReg rooms pn rc nid sid2).2 = Err EUncaught <->
     falsy pn = false /\ forall s, pn <> JString s) /\
  (rejoinRoomReg rooms rrc rpid rpn sid3).2 <> Err EUncaught.
Proof.
  split; [|split; [|split]].
  - unfold turn_valid. intros Hv. apply Nat.ltb_lt in Hv.
    destruct o; simpl; unfold keep, joinRoom, rejoinRoom, placeBid, packCards, resetPool,
      declareWinner, removePlayer, changeTurn, leaveRoom, disconnectTimeout, dropPlayer;
      repeat case_match; simpl; try discriminate.
    match goal with H : players r !! currentTurn r = None |- _ =>
      apply lookup_ge_None in H; lia end.
  - unfold createRoom. split.
    + destruct (falsy cn) eqn:Ef; [discriminate|].
      destruct cn; simpl in Ef; try discriminate Ef;
        try (intros _; split; [reflexivity | intros s'; discriminate]).
      intros Hc. destruct (String.eqb (trim s) ""); simpl in Hc; discriminate Hc.
    + intros [Ef Hs]. rewrite Ef. destruct cn; try reflexivity. exfalso; eapply Hs; reflexivity.
  - unfold joinRoomReg. split.
    + destruct (falsy pn) eqn:Ef; [discriminate|].
      destruct pn; simpl in Ef; try discriminate Ef;
        try (intros _; split; [reflexivity | intros s'; discriminate]).
      intros Hc. revert Hc. unfold joinRoom. repeat case_match; simplify_eq/=; discriminate.
    + intros [Ef Hs]. rewrite Ef. destruct pn; try reflexivity. exfalso; eapply Hs; reflexivity.
  - intros Hc. revert Hc. unfold rejoinRoomReg, rejoinRoom.
    repeat case_match; simplify_eq/=; discriminate.
Qed.

(** When the first player with the requester's id is not flagged
    [isCreator], or there is none, [resetPool], [declareWinner],
    [removePlayer] and [changeTurn] reject the request with their host-only
    error and leave the room unchanged. *)
Theorem host_only_requests r pid w t :
  (forall p, find (id_is pid) r.(players) = Some p -> p.(isCreator) = false) ->
  resetPool r pid = (r, Err EOnlyCreatorReset) /\
  declareWinner r pid w = (r, Err EOnlyHostDeclare) /\
  removePlayer r pid t = (r, Err EOnlyHostRemove) /\
  changeTurn r pid t = (r, Err EOnlyHostChangeTurn).
Proof.
  intros Hh. unfold resetPool, declareWinner, removePlayer, changeTurn.
  destruct (find (id_is pid) (players r)) as [hp|] eqn:E; [|done].
  rewrite (Hh hp eq_refl). done.
Qed.

(** A successful [placeBid] is made by the player at [currentTurn], for an
    amount between 1 and the balance of the first player with the
    requester's id; that player's balance drops by the amount, the pool
    grows by it, and the roster keeps its length. *)
Theorem placeBid_success r pid a r' evs :
  placeBid r pid a = (r', Ok evs) ->
  exists cur amt i p,
    r.(players) !! r.(currentTurn) = Some cur /\ cur.(id) = pid /\ a = Some amt /\
    r.(players) !! i = Some p /\ p.(id) = pid /\ (0 < amt <= p.(balance))%Z /\
    r'.(players) !! i = Some (set_balance p (p.(balance) - amt)) /\
    length r'.(players) = length r.(players) /\
    r'.(pool) = (r.(pool) + amt)%Z /\ evs = [EvBidPlaced p.(name) amt].
Proof.
  unfold placeBid.
  destruct (findIndex (id_is pid) (players r)) as [i|] eqn:Ei; [|intros H; simplify_eq].
  destruct (players r !! i) as [p|] eqn:Ep; [|intros H; simplify_eq].
  destruct (players r !! currentTurn r) as [cur|] eqn:Ec; [|intros H; simplify_eq].
  destruct (negb (id cur =? pid)) eqn:En; [intros H; simplify_eq|].
  destruct a as [amt|]; [|intros H; simplify_eq].
  destruct (amt <=? 0)%Z eqn:E0; [intros H; simplify_eq|].
  destruct (balance p <? amt)%Z eqn:Eb; [intros H; simplify_eq|].
  intros H. injection H as <- <-.
  destruct (findIndex_Some _ _ _ Ei) as [(x & Hx & Hid) _]. rewrite Ep in Hx. injection Hx as <-.
  apply negb_false_iff, String.eqb_eq in En. apply String.eqb_eq in Hid.
  apply Z.leb_gt in E0. apply Z.ltb_ge in Eb.
  exists cur, amt, i, p. rewrite !moveToNextActivePlayer_players. simpl.
  rewrite list_lookup_alter, Ep, length_alter. simpl. rewrite Pool.pool_moveToNextActivePlayer.
  simpl. repeat split; auto; try lia. case_decide; done.
Qed.

(** A successful [packCards] is made by the player at [currentTurn], who
    had not packed. *)
Theorem packCards_by_current_player r pid r' evs :
  packCards r pid = (r', Ok evs) ->
  exists p, r.(players) !! r.(currentTurn) = Some p /\ p.(id) = pid /\ p.(packed) = false.
Proof.
  unfold packCards.
  destruct (findIndex (id_is pid) (players r)) as [i|] eqn:Ei; [|intros H; simplify_eq].
  destruct (players r !! i) as [p|] eqn:Ep; [|intros H; simplify_eq].
  destruct (packed p) eqn:Hpk; [intros H; simplify_eq|].
  destruct (negb (currentTurn r =? i)%nat) eqn:En; [intros H; simplify_eq|].
  intros _. apply negb_false_iff, Nat.eqb_eq in En. rewrite En.
  destruct (findIndex_Some _ _ _ Ei) as [(x & Hx & Hid) _]. rewrite Ep in Hx. injection Hx as <-.
  apply String.eqb_eq in Hid. eauto.
Qed.

(** After a successful join, bid, pack, pool reset, declared winner or
    turn change on a room whose [currentTurn] is inside [players], either
    every player is packed or the player at [currentTurn] is not packed. *)
Theorem step_turn_on_unpacked_player r o r' evs :
  turn_valid r = true -> step r o = (Some r', Ok evs) ->
  match o with
  | ORejoin _ _ _ | ORemove _ _ | OLeave _ | OTimeout _ _ => True
  | _ => turn_on_unpacked r' = true
  end.
Proof.
  unfold turn_valid. intros Hv Hst. apply Nat.ltb_lt in Hv. apply step_cases in Hst.
  destruct o; try exact I.
  - revert Hst. unfold joinRoom. repeat case_match; intros Hr; simplify_eq.
    apply turn_on_unpacked_intro. rewrite ensureActiveTurn_players.
    apply ensureActiveTurn_range. simpl. rewrite length_app. simpl. lia.
  - revert Hst. unfold placeBid. repeat case_match; intros Hr; simplify_eq.
    apply turn_on_unpacked_intro. rewrite moveToNextActivePlayer_players.
    apply moveToNextActivePlayer_range. simpl. intros Hn.
    apply (f_equal length) in Hn. rewrite length_alter in Hn. simpl in Hn. lia.
  - revert Hst. unfold packCards.
    destruct (findIndex (id_is playerId) (players r)) as [pi|]; [|intros H; simplify_eq].
    destruct (players r !! pi) as [player|] eqn:Hpl; [|intros H; simplify_eq].
    destruct (packed player); [intros H; simplify_eq|].
    destruct (negb _); [intros H; simplify_eq|].
    set (r3 := moveToNextActivePlayer _).
    assert (Hne : r3.(players) <> []).
    { subst r3. rewrite moveToNextActivePlayer_players. simpl.
      intros Hn. apply (f_equal length) in Hn. rewrite length_alter in Hn. simpl in Hn. lia. }
    assert (H3 : (r3.(currentTurn) < length r3.(players))%nat).
    { subst r3. rewrite moveToNextActivePlayer_players in Hne |- *.
      apply moveToNextActivePlayer_range. exact Hne. }
    clearbody r3. intros Hr.
    assert (H4 : forall r4, (r4.(currentTurn) < length r4.(players))%nat ->
                 turn_on_unpacked (ensureActiveTurn r4) = true).
    { intros r4 Hr4. apply turn_on_unpacked_intro. rewrite ensureActiveTurn_players.
      apply ensureActiveTurn_range. exact Hr4. }
    revert Hr. repeat case_match; intros Hr; simplify_eq; apply H4; try exact H3.
    apply autoWin_turn. exact Hne.
  - revert Hst. unfold resetPool. repeat case_match; intros Hr; simplify_eq.
    unfold turn_on_unpacked. simpl. apply orb_true_intro. right.
    rewrite packed_at_map_false; done.
  - revert Hst. unfold declareWinner. repeat case_match; intros Hr; simplify_eq;
      unfold turn_on_unpacked; simpl; apply orb_true_intro; right;
      rewrite packed_at_map_false; done.
  - revert Hst. unfold changeTurn. repeat case_match; intros Hr; simplify_eq.
    unfold turn_on_unpacked, packed_at. simpl. apply orb_true_intro. right.
    match goal with H : players r !! ?i = Some ?p, Hp : packed ?p = false |- _ =>
      rewrite H, Hp end. done.
Qed.

(** Once a player has rejoined with a new socket id, the pending
    disconnect timeout of the old socket does nothing. *)
Theorem rejoin_cancels_timeout r pid pname sid sid' r1 evs :
  String.eqb sid' sid = false -> rejoinRoom r pid pname sid' = (r1, Ok evs) ->
  disconnectTimeout r1 pid sid = (Some r1, Ok []).
Proof.
  intros Hs. unfold rejoinRoom.
  destruct (findIndex (id_is pid) (players r)) as [i|] eqn:Ei; [|intros H; simplify_eq].
  intros H. injection H as <- _.
  destruct (findIndex_Some _ _ _ Ei) as [(x & Hx & _) _].
  unfold disconnectTimeout, find. simpl.
  rewrite findIndex_alter by (intros; reflexivity). rewrite Ei, list_lookup_alter, Hx. simpl.
  rewrite decide_True by done. simpl. rewrite Hs. done.
Qed.

(** [leaveRoom] deletes the room exactly when the leaver is its only
    player; the disconnect timeout deletes it exactly when the only player
    has the timed-out id and socket. *)
Theorem last_player_deletes_room r pid sid :
  ((leaveRoom r pid).1 = None <-> exists p, r.(players) = [p] /\ p.(id) = pid) /\
  ((disconnectTimeout r pid sid).1 = None <->
     exists p, r.(players) = [p] /\ p.(id) = pid /\ p.(socketId) = sid).
Proof.
  split; split.
  - unfold leaveRoom.
    destruct (findIndex (id_is pid) (players r)) as [i|] eqn:Ei; [|done].
    destruct (players r !! i) as [p|] eqn:Ep; [|done].
    destruct (dropPlayer r i p (LLeft (name p))) as [[r'|] rep] eqn:Hd; simpl; [done|].
    intros _. apply dropPlayer_None in Hd. exists p. split; [eapply delete_nil_singleton; eauto|].
    destruct (findIndex_Some _ _ _ Ei) as [(x & Hx & Hid) _]. rewrite Ep in Hx.
    injection Hx as <-. apply String.eqb_eq in Hid. done.
  - intros (p & Hp & <-). unfold leaveRoom. rewrite Hp. simpl. rewrite id_is_self. simpl.
    apply dropPlayer_last. done.
  - unfold disconnectTimeout.
    destruct (find (id_is pid) (players r)) as [cp|] eqn:Ef; [|done].
    destruct (String.eqb (socketId cp) sid) eqn:Es; [|done].
    destruct (findIndex (id_is pid) (players r)) as [i|] eqn:Ei; [|done].
    destruct (players r !! i) as [p|] eqn:Ep; [|done].
    destruct (dropPlayer r i p (LLeftTimeout (name p))) as [[r'|] rep] eqn:Hd; simpl; [done|].
    intros _. apply dropPlayer_None in Hd. exists p.
    split; [eapply delete_nil_singleton; eauto|].
    destruct (findIndex_Some _ _ _ Ei) as [(x & Hx & Hid) _]. rewrite Ep in Hx.
    injection Hx as <-. apply String.eqb_eq in Hid. split; [done|].
    unfold find in Ef. rewrite Ei, Ep in Ef. injection Ef as ->. apply String.eqb_eq. done.
  - intros (p & Hp & <- & <-). unfold disconnectTimeout, find. rewrite Hp. simpl.
    rewrite id_is_self. simpl. rewrite String.eqb_refl. apply dropPlayer_last. done.
Qed.

(** [joinRoom] and [rejoinRoom] on the registry never create or delete a
    room, and change at most the room under the requested code. *)
Theorem registry_join_rejoin_local (rooms : Registry.registry) pname rc nid pid rname sid :
  only_at rooms (joinRoomReg rooms pname rc nid sid).1 rc /\
  only_at rooms (rejoinRoomReg rooms rc pid rname sid).1 rc.
Proof.
  split.
  - unfold joinRoomReg. repeat case_match; simpl; try apply only_at_refl.
    match goal with H : rooms !! ?c = Some ?r0, E : joinRoom _ _ _ _ = (?r1, _) |- _ =>
      apply (only_at_insert rooms c r1 r0 H) end.
  - unfold rejoinRoomReg. repeat case_match; simpl; try apply only_at_refl.
    match goal with H : rooms !! ?c = Some ?r0, E : rejoinRoom _ _ _ _ = (?r1, _) |- _ =>
      apply (only_at_insert rooms c r1 r0 H) end.
Qed.

(** After [createRoom] with a non-blank ASCII creator name and a draw in
    [1000..9999], a join with the generated code and a non-blank ASCII name
    that differs from the creator's up to case succeeds: the room holds the
    creator and the new player, the turn at the creator. *)
Theorem create_then_join (rooms : Registry.registry) cn sb n pid sid pn nid sid2 :
  is_ascii cn = true -> is_ascii pn = true ->
  String.eqb (trim cn) "" = false ->
  (1000 <= n <= 9999)%Z ->
  String.eqb (trim pn) "" = false ->
  String.eqb (toLowerCase cn) (toLowerCase pn) = false ->
  let sb' := parseInt_or sb 1000 in
  let newPlayer := mkPlayer nid sid2 pn sb' false false in
  let rooms1 := (createRoom rooms (JString cn) sb n pid sid).1 in
  (joinRoomReg rooms1 (JString pn) (JString (generateRoomCode n)) nid sid2).2 =
    Ok [EvRoomJoined newPlayer] /\
  exists r, (joinRoomReg rooms1 (JString pn) (JString (generateRoomCode n)) nid sid2).1
              !! generateRoomCode n = Some r /\
            r.(players) = [mkPlayer pid sid cn sb' true false; newPlayer] /\
            r.(currentTurn) = 0%nat.
Proof.
  intros _ _ Hcn Hn Hpn Hlow sb' newPlayer rooms1.
  destruct (Create.room_codes_are_four_digits n Hn) as [Hlen _].
  assert (Hr0 : rooms1 !! generateRoomCode n =
     Some (addToGameLog (mkRoom (generateRoomCode n) cn sb'
             [mkPlayer pid sid cn sb' true false] 0 0 1 [] 0) (LCreated cn))).
  { subst rooms1. destruct (createRoom rooms (JString cn) sb n pid sid) as [rs rep] eqn:Ec.
    simpl.
    unfold createRoom in Ec. simpl in Ec. rewrite (trim_empty_nonempty _ Hcn), Hcn in Ec.
    injection Ec as <- _. apply lookup_insert_eq. }
  assert (Hcode : String.eqb (generateRoomCode n) "" = false).
  { destruct (generateRoomCode n); [discriminate Hlen|reflexivity]. }
  unfold joinRoomReg. simpl falsy. rewrite (trim_empty_nonempty _ Hpn), Hpn, Hcode, Hlen.
  simpl. rewrite Hr0. unfold joinRoom. rewrite Hpn. simpl. rewrite Hlow. simpl.
  split; [reflexivity|]. eexists. split; [apply lookup_insert_eq|]. split; reflexivity.
Qed.

End Extras.

(* ------------------------------------------------------------------ *)
(** ** The theorems at concrete inputs *)

Module Witnesses.
Import Room Handlers Registry SpecModel Samples.

(** [moveToNextActivePlayer_spec] at the room where both players are packed. *)
Lemma moveToNextActivePlayer_spec_witness :
  two_packed.(players) <> [] /\
  (moveToNextActivePlayer two_packed).(players) = two_packed.(players) /\
  ((exists i p, two_packed.(players) !! i = Some p /\ p.(packed) = false) ->
     exists k, (k < 2)%nat /\
       (moveToNextActivePlayer two_packed).(currentTurn) = ((1 + k) mod 2)%nat /\
       ((moveToNextActivePlayer two_packed).(currentTurn) < 2)%nat /\
       packed_at two_packed.(players) (moveToNextActivePlayer two_packed).(currentTurn) = false /\
       forall j, (j < k)%nat -> packed_at two_packed.(players) ((1 + j) mod 2) = true) /\
  ((forall i p, two_packed.(players) !! i = Some p -> p.(packed) = true) ->
     (moveToNextActivePlayer two_packed).(currentTurn) = 1%nat).
Proof.
  split; [discriminate|].
  exact (Turn.moveToNextActivePlayer_spec two_packed ltac:(discriminate)).
Defined.

(** [createRoom_overwrites] for creator "Bob", draw 1234, over an empty
    registry and over one where room 1234 is live. *)
Lemma createRoom_overwrites_witness :
  String.eqb (trim "Bob") "" = false /\ (1000 <= 1234 <= 9999)%Z /\
  String.length (generateRoomCode 1234) = 4%nat /\
  forallb is_digit (list_ascii_of_string (generateRoomCode 1234)) = true /\
  (createRoom ∅ (JString "Bob") (JInt 500) 1234 "p" "s").2 = Ok [EvRoomCreated] /\
  (exists rm, (createRoom ∅ (JString "Bob") (JInt 500) 1234 "p" "s").1 !! generateRoomCode 1234 = Some rm /\
     rm.(Room.code) = generateRoomCode 1234 /\
     (createRoom {[ "1234" := created ]} (JString "Bob") (JInt 500) 1234 "p" "s").1
        !! generateRoomCode 1234 = Some rm) /\
  (forall k, k <> generateRoomCode 1234 ->
     (createRoom ∅ (JString "Bob") (JInt 500) 1234 "p" "s").1 !! k = (∅ : registry) !! k).
Proof.
  split; [vm_compute; reflexivity|]. split; [lia|].
  exact (Create.createRoom_overwrites ∅ {[ "1234" := created ]} "Bob" (JInt 500) 1234 "p" "s"
           ltac:(vm_compute; reflexivity) ltac:(lia)).
Defined.

(** [step_error_leaves_room] at a bid by an id that is not in the room. *)
Lemma step_error_leaves_room_witness :
  step created (OBid "b" (Some 100%Z)) = (Some created, Err EPlayerNotFound) /\
  Some created = Some created.
Proof.
  split; [vm_compute; reflexivity|].
  apply (Failures.step_error_leaves_room created (OBid "b" (Some 100%Z)) (Some created)
           EPlayerNotFound).
  vm_compute. reflexivity.
Defined.

(** [pool_is_bids_since_settlement] along [three_bids]. *)
Lemma pool_is_bids_since_settlement_witness :
  created.(pool) = 0%Z /\
  (run (Some created) three_bids).1 = Some bid_room /\
  bid_room.(pool) = bids_since_settlement 0 (run (Some created) three_bids).2 /\
  (0 <= bid_room.(pool))%Z.
Proof.
  split; [vm_compute; reflexivity|]. split; [vm_compute; reflexivity|].
  apply (Pool.pool_is_bids_since_settlement created three_bids bid_room);
    vm_compute; reflexivity.
Defined.

(** [declareWinner_check_order] in the created room, by its creator. *)
Lemma declareWinner_check_order_witness :
  find (id_is "a") created.(players) = Some pA /\ pA.(isCreator) = true /\
  (findIndex (id_is "nobody") created.(players) = None ->
     declareWinner created "a" "nobody" = (created, Err EWinnerNotFound)) /\
  (findIndex (id_is "nobody") created.(players) <> None -> (created.(pool) <= 0)%Z ->
     declareWinner created "a" "nobody" = (created, Err EPoolEmpty)).
Proof.
  split; [vm_compute; reflexivity|]. split; [reflexivity|].
  apply (Declare.declareWinner_check_order created "a" "nobody" pA);
    vm_compute; reflexivity.
Defined.

(** [settlement_paths_agree] at the creator declaring B in [bid_room], at B
    packing in [duel] (which hands the pool to A), and at B in [bid_room]. *)
Lemma settlement_paths_agree_witness :
  let rd := declareWinner bid_room "a" "b" in
  let rk := packCards duel "b" in
  let pb := mkPlayer "b" "sb" "B" 900 false false in
  rd = (rd.1, Ok (ok_events rd.2)) /\
  (exists w, findIndex (id_is "b") bid_room.(players) = Some w /\
             without_log rd.1 = without_log (settlement bid_room w)) /\
  NoDup (map id duel.(players)) /\
  rk = (rk.1, Ok (ok_events rk.2)) /\
  existsb is_winner_event (ok_events rk.2) = true /\
  (exists i w, findIndex (id_is "b") duel.(players) = Some i /\
     let rp := set_players duel (alter (fun p => set_packed p true) i duel.(players)) in
     (forall j q, rp.(players) !! j = Some q -> (q.(packed) = false <-> j = w)) /\
     without_log rk.1 = without_log (settlement rp w)) /\
  bid_room.(players) !! 1%nat = Some pb /\
  (let r' := settlement bid_room 1 in
     r'.(players) !! 1%nat = Some (set_packed (set_balance pb (pb.(balance) + bid_room.(pool))) false) /\
     r'.(pool) = 0%Z /\ r'.(round) = (bid_room.(round) + 1)%Z /\ r'.(totalBids) = 0%Z /\
     r'.(currentTurn) = 1%nat /\
     (forall j q, r'.(players) !! j = Some q -> q.(packed) = false) /\
     length r'.(players) = length bid_room.(players)).
Proof.
  destruct Settle.settlement_paths_agree as (D & K & E).
  cbv zeta.
  split; [vm_compute; reflexivity|].
  split.
  { apply (D bid_room "a" "b" (declareWinner bid_room "a" "b").1
             (ok_events (declareWinner bid_room "a" "b").2)).
    vm_compute. reflexivity. }
  assert (Hnd : NoDup (map id duel.(players))).
  { vm_compute. constructor; [set_solver|]. constructor; [set_solver|constructor]. }
  split; [exact Hnd|].
  split; [vm_compute; reflexivity|].
  split; [vm_compute; reflexivity|].
  split.
  { apply (K duel "b" (packCards duel "b").1 (ok_events (packCards duel "b").2) Hnd);
      vm_compute; reflexivity. }
  assert (Hb : bid_room.(players) !! 1%nat = Some (mkPlayer "b" "sb" "B" 900 false false))
    by (vm_compute; reflexivity).
  split; [exact Hb|].
  exact (E bid_room 1%nat _ Hb).
Defined.


(** [rejoin_requires_name] with the room code and id of the creator of a
    live room but an empty name. *)
Lemma rejoin_requires_name_witness :
  let rooms := {[ "1234" := created ]} : registry in
  (JString "" = JUndefined \/ JString "" = JNull \/ JString "" = JString "") /\
  rejoinRoomReg rooms (JString "1234") (JString "a") (JString "") "s2" = (rooms, Err ERejoinInvalid).
Proof.
  cbv zeta. split; [right; right; reflexivity|].
  apply (Create.rejoin_requires_name {[ "1234" := created ]} (JString "1234") (JString "a")
           (JString "") "s2").
  right; right; reflexivity.
Defined.

End Witnesses.

(* ------------------------------------------------------------------ *)
(** ** Instances of the further properties on concrete rooms *)

Module ExtraWitnesses.
Import Room Handlers Registry Measures Samples Extras.

Lemma reachable_turn_in_range_witness :
  (bid_room.(currentTurn) < length bid_room.(players))%nat.
Proof.
  apply (reachable_turn_in_range ∅ "A" (JInt 1000) 1234 "a" "sa" created three_bids bid_room);
    vm_compute; reflexivity.
Defined.

Lemma reachable_one_creator_witness :
  length (List.filter isCreator bid_room.(players)) = 1%nat.
Proof.
  apply (reachable_one_creator ∅ "A" (JInt 1000) 1234 "a" "sa" created three_bids bid_room);
    vm_compute; reflexivity.
Defined.

Lemma reachable_names_distinct_witness :
  (forall p, In p bid_room.(players) -> is_ascii p.(name) = true) /\
  NoDup (map (fun p => toLowerCase p.(name)) bid_room.(players)).
Proof.
  apply (reachable_names_distinct ∅ "A" (JInt 1000) 1234 "a" "sa" created three_bids bid_room);
    vm_compute; reflexivity.
Defined.

Lemma reachable_pool_in_sync_witness :
  (0 <= bid_room.(pool))%Z /\ (0 <= bid_room.(totalBids))%Z /\
  (bid_room.(pool) = 0%Z <-> bid_room.(totalBids) = 0%Z) /\ (1 <= bid_room.(round))%Z.
Proof.
  apply (reachable_pool_in_sync ∅ "A" (JInt 1000) 1234 "a" "sa" created three_bids bid_room);
    vm_compute; reflexivity.
Defined.

Lemma reachable_log_bounded_witness :
  (length bid_room.(gameLog) <= 50)%nat.
Proof.
  apply (reachable_log_bounded ∅ "A" (JInt 1000) 1234 "a" "sa" created three_bids bid_room);
    vm_compute; reflexivity.
Defined.

Lemma reachable_nonneg_witness :
  (0 <= bid_room.(pool))%Z /\ forall p, In p bid_room.(players) -> (0 <= p.(balance))%Z.
Proof.
  apply (reachable_nonneg ∅ "A" (JInt 1000) 1234 "a" "sa" created three_bids bid_room);
    [vm_compute; discriminate | vm_compute; reflexivity ..].
Defined.

Lemma step_money_ledger_witness :
  total_money duel = total_money (after_run [OJoin "B" "b" "sb"]).
Proof.
  exact (step_money_ledger (after_run [OJoin "B" "b" "sb"]) (OBid "a" (Some 100%Z)) duel
           (Ok [EvBidPlaced "A" 100]) ltac:(vm_compute; reflexivity)).
Defined.

Lemma step_keeps_code_and_startingBalance_witness :
  (after_run (three_bids ++ [OLeave "c"])).(code) = bid_room.(code) /\
  (after_run (three_bids ++ [OLeave "c"])).(startingBalance) = bid_room.(startingBalance).
Proof.
  apply (step_keeps_code_and_startingBalance bid_room (OLeave "c")
           (after_run (three_bids ++ [OLeave "c"]))
           (step bid_room (OLeave "c")).2).
  vm_compute. reflexivity.
Defined.

Lemma valid_turn_never_uncaught_witness :
  (step bid_room (OBid "c" None)).2 <> Err EUncaught /\
  (createRoom ∅ (JInt 5) (JInt 1000) 1234 "a" "sa").2 = Err EUncaught /\
  (joinRoomReg ∅ (JBool true) (JString "1234") "b" "sb").2 = Err EUncaught /\
  (rejoinRoomReg ∅ (JString "1234") (JString "a") (JString "A") "sa").2 <> Err EUncaught.
Proof.
  destruct (valid_turn_never_uncaught ∅ bid_room (OBid "c" None) (JInt 5) (JInt 1000) 1234
              "a" "sa" (JBool true) (JString "1234") "b" "sb"
              (JString "1234") (JString "a") (JString "A") "sa") as (H1 & H2 & H3 & H4).
  split; [apply H1; vm_compute; reflexivity|].
  split; [apply H2; split; [reflexivity | intros s; discriminate]|].
  split; [apply H3; split; [reflexivity | intros s; discriminate] | exact H4].
Defined.

Lemma host_only_requests_witness :
  resetPool duel "b" = (duel, Err EOnlyCreatorReset) /\
  declareWinner duel "b" "a" = (duel, Err EOnlyHostDeclare) /\
  removePlayer duel "b" "a" = (duel, Err EOnlyHostRemove) /\
  changeTurn duel "b" "a" = (duel, Err EOnlyHostChangeTurn).
Proof.
  apply (host_only_requests duel "b" "a" "a").
  intros p Hp. vm_compute in Hp. injection Hp as <-. reflexivity.
Defined.

Lemma placeBid_success_witness :
  exists cur amt i p,
    bid_room.(players) !! bid_room.(currentTurn) = Some cur /\ cur.(id) = "c" /\
    Some 50%Z = Some amt /\
    bid_room.(players) !! i = Some p /\ p.(id) = "c" /\ (0 < amt <= p.(balance))%Z /\
    (placeBid bid_room "c" (Some 50%Z)).1.(players) !! i =
      Some (set_balance p (p.(balance) - amt)) /\
    length (placeBid bid_room "c" (Some 50%Z)).1.(players) = length bid_room.(players) /\
    (placeBid bid_room "c" (Some 50%Z)).1.(pool) = (bid_room.(pool) + amt)%Z /\
    [EvBidPlaced "C" 50] = [EvBidPlaced p.(name) amt].
Proof.
  apply (placeBid_success bid_room "c" (Some 50%Z) (placeBid bid_room "c" (Some 50%Z)).1
           [EvBidPlaced "C" 50]).
  vm_compute. reflexivity.
Defined.

Lemma packCards_by_current_player_witness :
  exists p, bid_room.(players) !! bid_room.(currentTurn) = Some p /\
            p.(id) = "c" /\ p.(packed) = false.
Proof.
  apply (packCards_by_current_player bid_room "c" (packCards bid_room "c").1
           (ok_events (packCards bid_room "c").2)).
  vm_compute. reflexivity.
Defined.

Lemma step_turn_on_unpacked_player_witness :
  turn_on_unpacked (after_run (three_bids ++ [OPack "c"])) = true.
Proof.
  apply (step_turn_on_unpacked_player bid_room (OPack "c") (after_run (three_bids ++ [OPack "c"]))
           (ok_events (step bid_room (OPack "c")).2));
    vm_compute; reflexivity.
Defined.

Lemma rejoin_cancels_timeout_witness :
  disconnectTimeout (rejoinRoom duel "b" "B" "sb2").1 "b" "sb" =
    (Some (rejoinRoom duel "b" "B" "sb2").1, Ok []).
Proof.
  apply (rejoin_cancels_timeout duel "b" "B" "sb" "sb2" (rejoinRoom duel "b" "B" "sb2").1
           [EvRoomRejoined]); vm_compute; reflexivity.
Defined.

Lemma create_then_join_witness :
  (joinRoomReg (createRoom ∅ (JString "A") (JInt 1000) 1234 "a" "sa").1 (JString "B")
     (JString (generateRoomCode 1234)) "b" "sb").2 =
    Ok [EvRoomJoined (mkPlayer "b" "sb" "B" (parseInt_or (JInt 1000) 1000) false false)] /\
  exists r, (joinRoomReg (createRoom ∅ (JString "A") (JInt 1000) 1234 "a" "sa").1 (JString "B")
               (JString (generateRoomCode 1234)) "b" "sb").1 !! generateRoomCode 1234 = Some r /\
            r.(players) = [mkPlayer "a" "sa" "A" (parseInt_or (JInt 1000) 1000) true false;
                           mkPlayer "b" "sb" "B" (parseInt_or (JInt 1000) 1000) false false] /\
            r.(currentTurn) = 0%nat.
Proof.
  apply (create_then_join ∅ "A" (JInt 1000) 1234 "a" "sa" "B" "b" "sb");
    [vm_compute; reflexivity | vm_compute; reflexivity | vm_compute; reflexivity | lia
    | vm_compute; reflexivity ..].
Defined.

End ExtraWitnesses.
